(** * Airthings node exporter: token lifecycle, sample cache and rendering

    A shallow embedding of [src/index.js] (the current copy, lines 1-293):
    the two persisted files, the OAuth2 token handling, [refreshMetrics],
    the cache decision of [getMetrics] and the rendering of metric lines.

    The development has three layers.
    - [Section Exporter] is the exporter under two assumptions: that
      [config.logLevel] names some string, so that [log] only prints and
      is left out, and that devices and cached detectors carry the
      fields the exporter reads ([id], [deviceType], [location.name],
      [segment.name], [segment.started]), so that they are records.
    - [Module Configured] drops the first assumption: every call of
      [log] is in its place and [config.logLevel] may be undefined, as
      it is under [src/config.js], which defines no such key. With a
      level set the two layers agree (lemmas [_configured]); without
      one every call of [log] raises (lemmas [_unconfigured]).
    - [Module Raw] drops the second assumption for the rendering of
      lines 286-291 and 197-199: the cache is any JSON value. On a
      cache of detectors it agrees with the first layer
      ([render_cacheJson]).

    Conventions of the model.
    - A JavaScript object used as a dictionary is a [gmap string _]; the
      order of [Object.entries] is the order of [map_to_list] (the
      specification declares order irrelevant).
    - An asynchronous function is a computation in the monad [M]: it
      threads the disk and a trace of the effects performed, and either
      resolves ([Ok]) or rejects ([Throw]). What [log] prints is not
      part of the trace.
    - One scrape happens at one instant [now], and within it the
      upstream answers the same way whenever it is asked the same thing.
    - [cloneDeep] is the identity. The text of a file is identified
      with what [JSON.parse] makes of it, and a document that was
      written is read back as it was: the members that are compared or
      rendered survive the round trip, while a [Date] comes back as a
      string, which only touches [time] and [segment.started], neither
      of which is rendered.
    - A write that throws fails on opening the file and leaves it as
      it was. *)

From stdpp Require Import gmap strings list fin_maps pretty.
From Stdlib Require Import ZArith Lia.

Set Default Proof Using "Type".

(** ** JavaScript numbers that occur as instants and ages *)

Inductive jsnum : Type :=
  | NaN
  | Num (z : Z).

(** Truthiness of a number: [NaN] and [0] are falsy. *)
Definition truthy (n : jsnum) : bool :=
  match n with
  | NaN => false
  | Num z => negb (z =? 0)%Z
  end.

(** [a <= b] on numbers: any comparison with [NaN] is false. *)
Definition js_le (a b : jsnum) : bool :=
  match a, b with
  | Num x, Num y => (x <=? y)%Z
  | _, _ => false
  end.

(** [new Date() - t] where [new Date()] is the instant [now]. *)
Definition js_sub_from (now : Z) (t : jsnum) : jsnum :=
  match t with
  | NaN => NaN
  | Num z => Num (now - z)
  end.

(** ** Exceptions and results *)

Inductive error : Type :=
  | TypeError
  | SyntaxError
  | FsError
  | HttpError
  | OAuthError
  | RefreshError (cause : error).

Inductive result (A : Type) : Type :=
  | Ok (a : A)
  | Throw (e : error).
Arguments Ok {A} a.
Arguments Throw {A} e.

#[global] Instance result_ret : MRet result := λ A a, Ok a.
#[global] Instance result_bind : MBind result := λ A B f r,
  match r with
  | Ok a => f a
  | Throw e => Throw e
  end.

(** [Promise.all]: rejects with the first rejection, otherwise resolves
    with all the values. *)
Fixpoint Promise_all {A} (settled : list (result A)) : result (list A) :=
  match settled with
  | [] => Ok []
  | Ok a :: rest =>
      match Promise_all rest with
      | Ok l => Ok (a :: l)
      | Throw e => Throw e
      end
  | Throw e :: _ => Throw e
  end.

(** ** Files and HTTP responses *)

(** A file is missing, or holds a text that [JSON.parse] rejects
    ([Text None]), a text that parses to a value the callers take for
    true ([Text (Some _)]), or a text that parses to [null], [false],
    [0] or the empty string ([FalsyText]). *)
Inductive file (A : Type) : Type :=
  | NoFile
  | Text (parsed : option A)
  | FalsyText.
Arguments NoFile {A}.
Arguments Text {A} parsed.
Arguments FalsyText {A}.

(** What [Wreck.get] does: it rejects (network error or error status),
    or resolves with a body that [JSON.parse] rejects ([Body None]),
    with a body that parses to a value the callers take for true
    ([Body (Some _)]), or with a body that parses to [null], [false],
    [0] or the empty string ([Falsy]). *)
Inductive response (A : Type) : Type :=
  | Rejected
  | Body (parsed : option A)
  | Falsy.
Arguments Rejected {A}.
Arguments Body {A} parsed.
Arguments Falsy {A}.

(** The quote character of the metric lines. *)
Definition dquote : string := String (Ascii.ascii_of_nat 34) EmptyString.

Definition notMetrics : list string := ["time"; "relayDeviceType"]%string.

(** The simple-oauth2 client handle. *)
Inductive Client : Type := ClientCredentials.

(** The token record of simple-oauth2: the bearer string and the
    expiry instant in milliseconds. *)
Record AccessToken : Type := {
  access_token : string;
  expires_at : Z;
}.

(** ** Logging (lines 33-59) *)

(** The levels the call sites of [log] use; they are the keys of
    [logLevels]. *)
Inductive Level : Type := LTrace | LDebug | LInfo | LLog | LWarn | LError.

Definition levelName (level : Level) : string :=
  match level with
  | LTrace => "trace"
  | LDebug => "debug"
  | LInfo => "info"
  | LLog => "log"
  | LWarn => "warn"
  | LError => "error"
  end.

(** [logLevels[name]]; [None] is what any other name gives in a
    comparison with a number. *)
Definition logLevels (name : string) : option nat :=
  if String.eqb name "trace" then Some 0
  else if String.eqb name "debug" then Some 10
  else if String.eqb name "info" then Some 20
  else if String.eqb name "log" then Some 20
  else if String.eqb name "warn" then Some 30
  else if String.eqb name "error" then Some 40
  else None.

(** [toLowerCase] on the letters A-Z. Characters outside ASCII that
    JavaScript lowers never lower to a level name. *)
Definition lowerChar (c : Ascii.ascii) : Ascii.ascii :=
  let n := Ascii.nat_of_ascii c in
  if (65 <=? n)%nat && (n <=? 90)%nat then Ascii.ascii_of_nat (n + 32) else c.

Fixpoint toLowerCase (s : string) : string :=
  match s with
  | EmptyString => EmptyString
  | String c rest => String (lowerChar c) (toLowerCase rest)
  end.

(** [log(level, ...)] under [config.logLevel]: whether the message is
    handed to the console. Reading [toLowerCase] off an undefined
    [logLevel] is a [TypeError]. *)
Definition log (logLevel : option string) (level : Level) : result bool :=
  match logLevel with
  | None => Throw TypeError
  | Some logLevelLimitName =>
      Ok match logLevels (levelName level),
               logLevels (toLowerCase logLevelLimitName) with
         | Some rank, Some limit => (limit <=? rank)%nat
         | _, _ => false
         end
  end.

Section Exporter.

(** Leaf values of the upstream JSON (numbers, strings, dates) with the
    three library conversions the code applies to them. *)
Context {value : Type}.
(** [`${v}`] *)
Context (ToString : value → string).
(** [new Date(parseInt(v, 10) * 1000.0)], also for a missing [v] *)
Context (epochToDate : option value → value).
(** [new Date(Date.parse(v))] *)
Context (parseDate : value → value).

(** ** Data model *)

Record Device : Type := {
  dev_id : string;
  deviceType : string;
  location_name : string;
  segment_name : string;
  segment_started : value;
}.

(** An entry of the cache: [{ ...device, latestSamples }]. *)
Record CachedDetector : Type := {
  cd_device : Device;
  latestSamples : option (gmap string value);
}.

(** The samples file: [{ persistedAt, samples }]. [persistedAt] is
    [None] when the field is absent (or falsy), otherwise it carries
    what [Date.parse] makes of it. *)
Record Document : Type := {
  persistedAt : option jsnum;
  samples : option (gmap string CachedDetector);
}.

(** A parsed upstream body that the callers take for true: the device
    list carries [devices], a latest-samples answer carries [data].
    [devices] is [None] when the field is absent or no array, [data]
    when the field is absent or [null]. *)
Record Payload : Type := {
  devices : option (list Device);
  data : option (gmap string value);
}.

(** ** The world of one scrape *)

Record World : Type := {
  now : Z;
  cacheLatestSamplesForMs : jsnum;
  (** outcome of [client.getToken]; [None] when it rejects *)
  getToken : option AccessToken;
  (** outcome of [Wreck.get] per resource path *)
  wreck : string → response Payload;
  (** whether [fs.writeFileSync] throws on the token / samples file *)
  tokenWriteFails : bool;
  samplesWriteFails : bool;
}.

Inductive event : Type :=
  | EvGetToken
  | EvWriteToken (t : AccessToken)
  | EvWriteSamples (d : Document)
  | EvRequest (resourcePath : string) (authorization : string).

Record Disk : Type := {
  tokenFile : file AccessToken;
  samplesFile : file Document;
  trace : list event;
}.

Definition emit (e : event) (s : Disk) : Disk :=
  {| tokenFile := tokenFile s; samplesFile := samplesFile s;
     trace := trace s ++ [e] |}.

(** ** The monad of asynchronous functions *)

Definition M (A : Type) : Type := Disk → result A * Disk.

#[global] Instance M_ret : MRet M := λ A a s, (Ok a, s).
#[global] Instance M_bind : MBind M := λ A B f m s,
  match m s with
  | (Ok a, s') => f a s'
  | (Throw e, s') => (Throw e, s')
  end.

Definition throw {A} (e : error) : M A := λ s, (Throw e, s).

Definition lift {A} (r : result A) : M A := λ s, (r, s).

(** [try { m } catch (error) { h error }] *)
Definition try_catch {A} (m : M A) (h : error → M A) : M A := λ s,
  match m s with
  | (Ok a, s') => (Ok a, s')
  | (Throw e, s') => h e s'
  end.

(** Runs [m] to the end and hands back how it settled. *)
Definition settle {A} (m : M A) : M (result A) := λ s,
  let '(r, s') := m s in (Ok r, s').

Fixpoint traverse {A B} (f : A → M B) (l : list A) : M (list B) :=
  match l with
  | [] => mret []
  | a :: rest => b ← f a; bs ← traverse f rest; mret (b :: bs)
  end.

Definition M_map {A B} (f : A → B) (m : M A) : M B := a ← m; mret (f a).
Notation "f <$$> m" := (M_map f m) (at level 61, left associativity).

Variable w : World.

(** ** File primitives *)

Definition writeTokenFile (t : AccessToken) : M unit := λ s,
  let s := emit (EvWriteToken t) s in
  if tokenWriteFails w then (Throw FsError, s)
  else (Ok tt, {| tokenFile := Text (Some t);
                  samplesFile := samplesFile s; trace := trace s |}).

Definition writeSamplesFile (d : Document) : M unit := λ s,
  let s := emit (EvWriteSamples d) s in
  if samplesWriteFails w then (Throw FsError, s)
  else (Ok tt, {| tokenFile := tokenFile s;
                  samplesFile := Text (Some d); trace := trace s |}).

(** [fs.readFileSync]: the text of the file, here what [JSON.parse]
    will make of it: [None] when it is not JSON, otherwise the parsed
    value, itself [None] when that value is falsy. *)
Definition readFile {A} (f : file A) : result (option (option A)) :=
  match f with
  | NoFile => Throw FsError
  | Text None => Ok None
  | Text (Some a) => Ok (Some (Some a))
  | FalsyText => Ok (Some None)
  end.

Definition readTokenFile : M (option (option AccessToken)) := λ s,
  (readFile (tokenFile s), s).

Definition readSamplesFile : M (option (option Document)) := λ s,
  (readFile (samplesFile s), s).

Definition JSON_parse {A} (text : option A) : M A :=
  match text with
  | None => throw SyntaxError
  | Some a => mret a
  end.

(** ** Persistence (lines 61-121)

    Here and below in this section the calls of [log] are left out:
    [config.logLevel] is taken to name a string, and then [log] only
    prints. [Module Configured] has them in place. *)

Definition persistAccessToken (accessToken : AccessToken) : M unit :=
  try_catch (writeTokenFile accessToken) (λ _, mret tt).

Definition getPersistedAccesstoken : M (option AccessToken) :=
  try_catch
    (accessTokenJson ← readTokenFile;
     JSON_parse accessTokenJson)
    (λ _, mret None).

Definition persistLatestSamples
    (latestSamples : option (gmap string CachedDetector)) : M unit :=
  try_catch
    (writeSamplesFile {| persistedAt := Some (Num (now w));
                         samples := latestSamples |})
    (λ _, mret tt).

Definition getPersistedLatestSamples : M (option Document) :=
  try_catch
    (latestSamplesJson ← readSamplesFile;
     JSON_parse latestSamplesJson)
    (λ _, mret None).

(** ** Token handling (lines 123-163) *)

(** [expired()] of simple-oauth2: [expires_at - Date.now() <= 0]. *)
Definition expired (t : AccessToken) : bool :=
  (expires_at t - now w <=? 0)%Z.

(** [client.getToken(tokenParams)]; on an undefined [client] the
    property access is a [TypeError] and nothing goes out. *)
Definition client_getToken (client : option Client) : M AccessToken :=
  match client with
  | None => throw TypeError
  | Some _ => λ s,
      (match getToken w with
       | Some t => Ok t
       | None => Throw OAuthError
       end, emit EvGetToken s)
  end.

Definition fetchNewToken (client : option Client) : M AccessToken :=
  try_catch (client_getToken client) (λ error, throw error).

(** [client.createToken] wraps the persisted token as it is; on an
    undefined [client] the property access is a [TypeError]. *)
Definition login (client : option Client) : M AccessToken :=
  accessTokenJSONString ← getPersistedAccesstoken;
  match accessTokenJSONString with
  | Some persisted =>
      match client with
      | Some _ => mret persisted
      | None => throw TypeError
      end
  | None =>
      accessToken ← fetchNewToken client;
      _ ← persistAccessToken accessToken;
      mret accessToken
  end.

Definition ensureFreshToken (accessToken : AccessToken)
    (client : option Client) : M AccessToken :=
  if expired accessToken then
    try_catch
      (newAccessToken ← fetchNewToken client;
       _ ← persistAccessToken newAccessToken;
       mret newAccessToken)
      (λ error, throw (RefreshError error))
  else mret accessToken.

(** ** Upstream calls (lines 165-185) *)

(** The payload of the response as [JSON.parse] will read it: [None]
    when it is not JSON, otherwise the parsed value, itself [None] when
    that value is falsy. *)
Definition Wreck_get (resourcePath authorization : string)
    : M (option (option Payload)) := λ s,
  let s := emit (EvRequest resourcePath authorization) s in
  match wreck w resourcePath with
  | Rejected => (Throw HttpError, s)
  | Body None => (Ok None, s)
  | Body (Some payload) => (Ok (Some (Some payload)), s)
  | Falsy => (Ok (Some None), s)
  end.

Definition getData (resourcePath : string) (accessToken : AccessToken)
    (client : option Client) : M (option Payload) :=
  freshAccessToken ← ensureFreshToken accessToken client;
  payload ← try_catch
    (Some <$$> Wreck_get resourcePath (access_token freshAccessToken))
    (λ _, mret None);
  match payload with
  | None => mret None
  | Some text => JSON_parse text
  end.

(** ** Devices and metric lines (lines 187-199) *)

Definition deviceIsNotAHub (device : Device) : bool :=
  negb (String.eqb (deviceType device) "HUB").

Definition decorateDevice (device : Device) : Device :=
  {| dev_id := dev_id device;
     deviceType := deviceType device;
     location_name := location_name device;
     segment_name := segment_name device;
     segment_started := parseDate (segment_started device) |}.

Definition metricToString (detector : CachedDetector)
    (metric : string * value) : string :=
  "airthings_" +:+ metric.1
  +:+ "{device_id=" +:+ dquote +:+ dev_id (cd_device detector) +:+ dquote
  +:+ ",device_location=" +:+ dquote
  +:+ location_name (cd_device detector) +:+ dquote
  +:+ ",device_segment=" +:+ dquote
  +:+ segment_name (cd_device detector) +:+ dquote
  +:+ "} " +:+ ToString metric.2.

(** ** refreshMetrics (lines 201-251) *)

(** The reduce of lines 211-217. *)
Definition detectorsOf (devices : list Device) : gmap string Device :=
  foldl (λ accumulator device,
           <[dev_id device := decorateDevice device]> accumulator)
        ∅ (List.filter deviceIsNotAHub devices).

Definition latestSamplesPath (id : string) : string :=
  "devices/" +:+ id +:+ "/latest-samples".

(** The asynchronous callback of lines 227-236. [getData] is called
    without a client. [None] stands for the pair [[null, null]]. *)
Definition fetchLatestSamples (accessToken : AccessToken)
    (detector : Device) : M (option (string * gmap string value)) :=
  devicePayload ← getData (latestSamplesPath (dev_id detector))
                          accessToken None;
  match devicePayload with
  | Some payload =>
      match data payload with
      | Some fields =>
          mret (Some (dev_id detector,
                      <["time" := epochToDate (fields !! "time")]> fields))
      | None => throw TypeError
      end
  | None => mret None
  end.

(** The [forEach] of lines 242-244 on the pairs that passed the filter.
    Assigning into an undefined [latestSamples] is a [TypeError]. The
    lookup [detectors[id]] always succeeds, see
    [detectorsOf_lookup_own_id]. *)
Definition overwrite (detectors : gmap string Device)
    (latestSamples : option (gmap string CachedDetector))
    (fresh : list (string * gmap string value))
    : result (option (gmap string CachedDetector)) :=
  foldl (λ acc '(id, samples),
           latestSamples ← acc;
           match latestSamples with
           | None => Throw TypeError
           | Some cache =>
               match detectors !! id with
               | Some device =>
                   Ok (Some (<[id := {| cd_device := device;
                                        latestSamples := Some samples |}]>
                               cache))
               | None => Ok (Some cache)
               end
           end)
        (Ok latestSamples) fresh.

Definition Object_values {A} (o : gmap string A) : list A :=
  (map_to_list o).*2.

(** All callbacks are started, whatever the others do. The catch of
    line 245 finds [latestSamples] as it was before the try block: a
    rejection of [Promise.all] comes before any assignment, and an
    assignment throws only into an undefined cache. *)
Definition refreshMetrics (accessToken : AccessToken)
    (cachedLatestSamples : option (gmap string CachedDetector))
    (client : option Client) : M (option (gmap string CachedDetector)) :=
  let latestSamples := cachedLatestSamples in
  devicesPayload ← getData "devices" accessToken client;
  match devicesPayload with
  | None => mret latestSamples
  | Some payload =>
      match devices payload with
      | None => throw TypeError
      | Some devices =>
          let detectors := detectorsOf devices in
          latestSamples ←
            try_catch
              (settled ← traverse
                 (λ detector, settle (fetchLatestSamples accessToken detector))
                 (Object_values detectors);
               detectorSamples ← lift (Promise_all settled);
               lift (overwrite detectors latestSamples
                       (omap (λ found, found) detectorSamples)))
              (λ _, mret latestSamples);
          _ ← persistLatestSamples latestSamples;
          mret latestSamples
      end
  end.

(** ** getMetrics (lines 253-293) *)

(** Lines 254-277: the pair [(useCache, cachedLatestSamples)] after the
    persisted document has been examined. *)
Definition cacheDecision (persistedSamplesResponse : option Document)
    : bool * option (gmap string CachedDetector) :=
  match persistedSamplesResponse with
  | Some document =>
      match persistedAt document with
      | Some parsed =>
          let latestSamplesCacheAge := js_sub_from (now w) parsed in
          (truthy latestSamplesCacheAge
           && js_le latestSamplesCacheAge (cacheLatestSamplesForMs w),
           samples document)
      | None => (false, Some ∅)
      end
  | None => (false, Some ∅)
  end.

(** Lines 287-289; [Object.entries] of an absent [latestSamples] is a
    [TypeError]. *)
Definition metricLines (detector : CachedDetector) : result (list string) :=
  match latestSamples detector with
  | None => Throw TypeError
  | Some fields =>
      Ok (metricToString detector
            <$> filter (λ metric : string * value, metric.1 ∉ notMetrics)
                       (map_to_list fields))
  end.

(** Lines 286-291: the reduce over the cache. *)
Definition render (cachedLatestSamples : option (gmap string CachedDetector))
    : result (list string) :=
  match cachedLatestSamples with
  | None => Throw TypeError
  | Some cache =>
      foldl (λ acc entry,
               acc ← acc;
               metricLines ← metricLines entry.2;
               Ok (acc ++ metricLines))
            (Ok []) (map_to_list cache)
  end.

Definition getMetrics (client : option Client) : M (list string) :=
  accessToken ← login client;
  persistedSamplesResponse ← getPersistedLatestSamples;
  let '(useCache, cachedLatestSamples) :=
    cacheDecision persistedSamplesResponse in
  cachedLatestSamples ←
    (if negb useCache
     then refreshMetrics accessToken cachedLatestSamples client
     else mret cachedLatestSamples);
  lift (render cachedLatestSamples).

(** ** What the specification says, where it is compared with the code *)

(** The refresh seed in the words of the specification:
    [document?.samples ?? {}]. *)
Definition seedPerSpec (document : option Document)
    : option (gmap string CachedDetector) :=
  match document with
  | Some d =>
      match samples d with
      | Some cache => Some cache
      | None => Some ∅
      end
  | None => Some ∅
  end.

(** The freshness test in the words of the specification:
    [persistedAt] present and [now - persistedAt <= ttl]. *)
Definition isFreshPerSpec (document : Document) : bool :=
  match persistedAt document with
  | Some parsed => js_le (js_sub_from (now w) parsed) (cacheLatestSamplesForMs w)
  | None => false
  end.

(** What [getPersistedLatestSamples] finds on a disk. *)
Definition loadedDocument (s : Disk) : option Document :=
  match samplesFile s with
  | Text (Some document) => Some document
  | _ => None
  end.

Definition loadedToken (s : Disk) : option AccessToken :=
  match tokenFile s with
  | Text (Some t) => Some t
  | _ => None
  end.

(** ** Outcomes of the upstream calls, as functions of the world *)

(** How the callback of [Promise.all] settles for one detector. *)
Definition fetchOutcome (accessToken : AccessToken) (detector : Device)
    : result (option (string * gmap string value)) :=
  if expired accessToken then Throw (RefreshError TypeError)
  else
    match wreck w (latestSamplesPath (dev_id detector)) with
    | Rejected | Falsy => Ok None
    | Body None => Throw SyntaxError
    | Body (Some payload) =>
        match data payload with
        | Some fields =>
            Ok (Some (dev_id detector,
                      <["time" := epochToDate (fields !! "time")]> fields))
        | None => Throw TypeError
        end
    end.

(** The requests that the callbacks send. *)
Definition sampleRequests (accessToken : AccessToken)
    (detectors : gmap string Device) : list event :=
  if expired accessToken then []
  else map (λ detector, EvRequest (latestSamplesPath (dev_id detector))
                                  (access_token accessToken))
           (Object_values detectors).

(** The value of [latestSamples] after the try block of lines 225-247. *)
Definition refreshed (accessToken : AccessToken)
    (detectors : gmap string Device)
    (latestSamples : option (gmap string CachedDetector))
    : option (gmap string CachedDetector) :=
  match Promise_all (map (fetchOutcome accessToken)
                         (Object_values detectors)) with
  | Ok detectorSamples =>
      match overwrite detectors latestSamples
              (omap (λ found, found) detectorSamples) with
      | Ok cache => cache
      | Throw _ => latestSamples
      end
  | Throw _ => latestSamples
  end.

(** The assignments of the [forEach] on a defined cache. *)
Definition assignAll (detectors : gmap string Device)
    (cache : gmap string CachedDetector)
    (fresh : list (string * gmap string value))
    : gmap string CachedDetector :=
  foldl (λ cache found,
           match detectors !! found.1 with
           | Some device =>
               <[found.1 := {| cd_device := device;
                              latestSamples := Some found.2 |}]> cache
           | None => cache
           end) cache fresh.

(** What a successful latest-samples call yields for a device id:
    [{ ...data, time: new Date(parseInt(data.time, 10) * 1000.0) }]. *)
Definition freshFields (id : string) : option (gmap string value) :=
  match wreck w (latestSamplesPath id) with
  | Body (Some payload) =>
      match data payload with
      | Some fields =>
          Some (<["time" := epochToDate (fields !! "time")]> fields)
      | None => None
      end
  | _ => None
  end.

(** The metric line in the words of the specification. *)
Definition linePerSpec (id loc seg field : string) (v : value) : string :=
  "airthings_" +:+ field
  +:+ "{device_id=" +:+ dquote +:+ id +:+ dquote
  +:+ ",device_location=" +:+ dquote +:+ loc +:+ dquote
  +:+ ",device_segment=" +:+ dquote +:+ seg +:+ dquote
  +:+ "} " +:+ ToString v.

(** The fields of a cached detector that are metrics, each with the key
    and the entry it belongs to. *)
Definition metricsOfEntry (entry : string * CachedDetector)
    : list (string * CachedDetector * (string * value)) :=
  (λ metric, (entry.1, entry.2, metric))
    <$> filter (λ metric : string * value, metric.1 ∉ notMetrics)
               (map_to_list (default ∅ (latestSamples entry.2))).

Definition metricsOf (cache : gmap string CachedDetector)
    : list (string * CachedDetector * (string * value)) :=
  map_to_list cache ≫= metricsOfEntry.

Definition hasSamples (detector : CachedDetector) : Prop :=
  is_Some (latestSamples detector).

Definition emits (es : list event) (s : Disk) : Disk :=
  {| tokenFile := tokenFile s; samplesFile := samplesFile s;
     trace := trace s ++ es |}.

(** An asynchronous computation settles to [r] when it does so from
    every disk. *)
Definition settlesTo {A} (m : M A) (r : result A) : Prop :=
  ∀ s, (m s).1 = r.

(** * Theorems *)

Lemma Zleb_ext (a b c d : Z) :
  (a ≤ b ↔ c ≤ d)%Z → (a <=? b)%Z = (c <=? d)%Z.
Proof.
  intros H. destruct (Z.leb_spec a b), (Z.leb_spec c d); [done|lia|lia|done].
Qed.

(** ** Persistence *)

Lemma persistAccessToken_run t s :
  persistAccessToken t s =
    (Ok tt,
     {| tokenFile := if tokenWriteFails w then tokenFile s else Text (Some t);
        samplesFile := samplesFile s;
        trace := trace s ++ [EvWriteToken t] |}).
Proof.
  unfold persistAccessToken, try_catch, writeTokenFile.
  destruct s as [tf sf tr]; simpl. by destruct (tokenWriteFails w).
Qed.

Lemma persistLatestSamples_run c s :
  persistLatestSamples c s =
    (Ok tt,
     {| tokenFile := tokenFile s;
        samplesFile :=
          if samplesWriteFails w then samplesFile s
          else Text (Some {| persistedAt := Some (Num (now w));
                             samples := c |});
        trace := trace s ++ [EvWriteSamples
                               {| persistedAt := Some (Num (now w));
                                  samples := c |}] |}).
Proof.
  unfold persistLatestSamples, try_catch, writeSamplesFile.
  destruct s as [tf sf tr]; simpl. by destruct (samplesWriteFails w).
Qed.

Lemma getPersistedAccesstoken_run s :
  getPersistedAccesstoken s = (Ok (loadedToken s), s).
Proof.
  unfold getPersistedAccesstoken, try_catch, readTokenFile, loadedToken,
    mbind, M_bind, JSON_parse, throw, mret, M_ret.
  by destruct (tokenFile s) as [|[t|]|].
Qed.

Lemma getPersistedLatestSamples_run s :
  getPersistedLatestSamples s = (Ok (loadedDocument s), s).
Proof.
  unfold getPersistedLatestSamples, try_catch, readSamplesFile,
    loadedDocument, mbind, M_bind, JSON_parse, throw, mret, M_ret.
  by destruct (samplesFile s) as [|[d|]|].
Qed.

(** ** Token handling *)

Lemma fetchNewToken_run client s :
  fetchNewToken client s =
    match client with
    | None => (Throw TypeError, s)
    | Some _ =>
        (match getToken w with
         | Some t => Ok t
         | None => Throw OAuthError
         end, emit EvGetToken s)
    end.
Proof.
  unfold fetchNewToken, try_catch, client_getToken, throw.
  destruct client; [|done]. by destruct (getToken w).
Qed.

Lemma login_run client s :
  login client s =
    match loadedToken s with
    | Some persisted =>
        match client with
        | Some _ => (Ok persisted, s)
        | None => (Throw TypeError, s)
        end
    | None =>
        match client with
        | None => (Throw TypeError, s)
        | Some _ =>
            match getToken w with
            | Some t =>
                (Ok t,
                 {| tokenFile := if tokenWriteFails w then tokenFile s
                                 else Text (Some t);
                    samplesFile := samplesFile s;
                    trace := trace s ++ [EvGetToken; EvWriteToken t] |})
            | None => (Throw OAuthError, emit EvGetToken s)
            end
        end
    end.
Proof.
  unfold login, mbind, M_bind. rewrite getPersistedAccesstoken_run.
  destruct (loadedToken s); [by destruct client|].
  rewrite fetchNewToken_run. destruct client; [|done].
  destruct (getToken w); [|done].
  rewrite persistAccessToken_run. simpl. by rewrite <- app_assoc.
Qed.

Lemma ensureFreshToken_run accessToken client s :
  ensureFreshToken accessToken client s =
    if expired accessToken then
      match client with
      | None => (Throw (RefreshError TypeError), s)
      | Some _ =>
          match getToken w with
          | Some t =>
              (Ok t,
               {| tokenFile := if tokenWriteFails w then tokenFile s
                               else Text (Some t);
                  samplesFile := samplesFile s;
                  trace := trace s ++ [EvGetToken; EvWriteToken t] |})
          | None => (Throw (RefreshError OAuthError), emit EvGetToken s)
          end
      end
    else (Ok accessToken, s).
Proof.
  unfold ensureFreshToken. destruct (expired accessToken); [|done].
  unfold try_catch, mbind, M_bind. rewrite fetchNewToken_run.
  destruct client; [|done]. destruct (getToken w); [|done].
  rewrite persistAccessToken_run. simpl. by rewrite <- app_assoc.
Qed.

(** ** Upstream calls *)

Lemma emits_nil s : emits [] s = s.
Proof. destruct s. unfold emits; simpl. by rewrite app_nil_r. Qed.

Lemma emits_emits es1 es2 s : emits es2 (emits es1 s) = emits (es1 ++ es2) s.
Proof. unfold emits; simpl. by rewrite app_assoc. Qed.

Lemma emit_emits e s : emit e s = emits [e] s.
Proof. done. Qed.

Lemma getData_run resourcePath accessToken client s :
  getData resourcePath accessToken client s =
    match ensureFreshToken accessToken client s with
    | (Throw e, s1) => (Throw e, s1)
    | (Ok fresh, s1) =>
        (match wreck w resourcePath with
         | Rejected | Falsy => Ok None
         | Body None => Throw SyntaxError
         | Body (Some payload) => Ok (Some payload)
         end, emit (EvRequest resourcePath (access_token fresh)) s1)
    end.
Proof.
  unfold getData, mbind, M_bind.
  destruct (ensureFreshToken accessToken client s) as [[fresh|e] s1]; [|done].
  unfold try_catch, M_map, Wreck_get, mbind, M_bind, JSON_parse, throw,
    mret, M_ret.
  by destruct (wreck w resourcePath) as [|[payload|]|].
Qed.

Lemma fetchLatestSamples_run accessToken detector s :
  fetchLatestSamples accessToken detector s =
    (fetchOutcome accessToken detector,
     if expired accessToken then s
     else emit (EvRequest (latestSamplesPath (dev_id detector))
                          (access_token accessToken)) s).
Proof.
  unfold fetchLatestSamples, fetchOutcome, mbind, M_bind.
  rewrite getData_run, ensureFreshToken_run.
  destruct (expired accessToken); [done|].
  destruct (wreck w _) as [|[payload|]|]; [done| |done..].
  by destruct (data payload).
Qed.

Lemma traverse_settle_run accessToken (l : list Device) s :
  traverse (λ detector, settle (fetchLatestSamples accessToken detector)) l s
  = (Ok (map (fetchOutcome accessToken) l),
     emits (if expired accessToken then []
            else map (λ detector,
                        EvRequest (latestSamplesPath (dev_id detector))
                                  (access_token accessToken)) l) s).
Proof.
  revert s. induction l as [|d l IH]; intros s; simpl.
  - unfold mret, M_ret. destruct (expired accessToken); by rewrite emits_nil.
  - unfold mbind, M_bind, settle. rewrite fetchLatestSamples_run.
    fold (@mbind M _). unfold mbind, M_bind. rewrite IH.
    unfold mret, M_ret. f_equal.
    destruct (expired accessToken).
    + by rewrite !emits_nil.
    + by rewrite emit_emits, emits_emits.
Qed.

Lemma refreshMetrics_run accessToken cachedLatestSamples client s :
  refreshMetrics accessToken cachedLatestSamples client s =
    match getData "devices" accessToken client s with
    | (Throw e, s1) => (Throw e, s1)
    | (Ok None, s1) => (Ok cachedLatestSamples, s1)
    | (Ok (Some payload), s1) =>
        match devices payload with
        | None => (Throw TypeError, s1)
        | Some devs =>
            let cache := refreshed accessToken (detectorsOf devs)
                                   cachedLatestSamples in
            (Ok cache,
             (persistLatestSamples cache
                (emits (sampleRequests accessToken (detectorsOf devs)) s1)).2)
        end
    end.
Proof.
  unfold refreshMetrics. unfold mbind at 1. unfold M_bind at 1.
  destruct (getData "devices" accessToken client s) as [[[payload|]|e] s1];
    [|done|done].
  destruct (devices payload) as [devs|]; [|done].
  unfold mbind, M_bind, try_catch. rewrite traverse_settle_run.
  fold (sampleRequests accessToken (detectorsOf devs)).
  unfold refreshed, lift.
  destruct (Promise_all _) as [detectorSamples|e].
  - destruct (overwrite _ _ _) as [cache|e];
      unfold mret, M_ret; simpl;
      rewrite ?persistLatestSamples_run; reflexivity.
  - unfold mret, M_ret; simpl.
    rewrite ?persistLatestSamples_run; reflexivity.
Qed.

(** ** The detector map *)

Lemma foldl_invariant {A B} (P : A → Prop) (f : A → B → A) (l : list B) a :
  P a → (∀ a x, x ∈ l → P a → P (f a x)) → P (foldl f a l).
Proof.
  revert a. induction l as [|x l IH]; intros a Ha Hstep; simpl; [done|].
  apply IH.
  - apply Hstep; [left|done].
  - intros a' y Hy. apply Hstep. by right.
Qed.

Lemma deviceIsNotAHub_true device :
  deviceIsNotAHub device = true ↔ deviceType device ≠ "HUB".
Proof.
  unfold deviceIsNotAHub. rewrite negb_true_iff.
  destruct (String.eqb_spec (deviceType device) "HUB"); split; congruence.
Qed.

(** Every detector is the decoration of a device of the list that is
    not a hub, and it sits under its own id. *)
Lemma detectorsOf_lookup devs k d :
  detectorsOf devs !! k = Some d →
  dev_id d = k ∧ deviceType d ≠ "HUB"
  ∧ ∃ dev, dev ∈ devs ∧ deviceType dev ≠ "HUB" ∧ d = decorateDevice dev.
Proof.
  unfold detectorsOf. revert k d.
  apply (foldl_invariant (λ m : gmap string Device, ∀ k d, m !! k = Some d → _)).
  - intros k d. by rewrite lookup_empty.
  - intros m dev Hdev IH k d.
    apply list_elem_of_In, filter_In in Hdev as [Hin Hhub].
    apply list_elem_of_In in Hin. apply deviceIsNotAHub_true in Hhub.
    rewrite lookup_insert. case_decide as Hk.
    + intros [= <-]. subst k. simpl. split_and!; [done..|]. by exists dev.
    + apply IH.
Qed.

Lemma detectorsOf_lookup_own_id devs d :
  d ∈ Object_values (detectorsOf devs) → detectorsOf devs !! dev_id d = Some d.
Proof.
  unfold Object_values. intros Hd.
  apply list_elem_of_fmap in Hd as [[k d'] [-> Hkd]]. simpl.
  apply elem_of_map_to_list in Hkd.
  by destruct (detectorsOf_lookup _ _ _ Hkd) as [-> _].
Qed.

Lemma Object_values_lookup {A} (o : gmap string A) k a :
  o !! k = Some a → a ∈ Object_values o.
Proof.
  intros H. unfold Object_values. apply list_elem_of_fmap.
  exists (k, a). split; [done|]. by apply elem_of_map_to_list.
Qed.

(** ** The merge *)

Lemma overwrite_Some detectors cache fresh :
  overwrite detectors (Some cache) fresh
  = Ok (Some (assignAll detectors cache fresh)).
Proof.
  unfold overwrite, assignAll. revert cache.
  induction fresh as [|[id smp] fresh IH]; intros cache; simpl; [done|].
  destruct (detectors !! id); apply IH.
Qed.

Lemma overwrite_None detectors fresh :
  overwrite detectors None fresh = Ok None ∨
  ∃ e, overwrite detectors None fresh = Throw e.
Proof.
  destruct fresh as [|[id smp] fresh]; [by left|right].
  exists TypeError. unfold overwrite. simpl.
  induction fresh as [|[id' smp'] fresh IH]; simpl; [done|apply IH].
Qed.

Lemma assignAll_dom detectors cache fresh :
  dom cache ⊆ dom (assignAll detectors cache fresh).
Proof.
  unfold assignAll.
  apply (foldl_invariant (λ m, dom cache ⊆ dom m)); [done|].
  intros m [id smp] _ IH. simpl. destruct (detectors !! id); [|done].
  rewrite dom_insert. set_solver.
Qed.

Lemma assignAll_entries detectors cache fresh k e :
  assignAll detectors cache fresh !! k = Some e →
  cache !! k = Some e ∨ detectors !! k = Some (cd_device e).
Proof.
  unfold assignAll. revert k e.
  apply (foldl_invariant
           (λ m : gmap string CachedDetector, ∀ k e, m !! k = Some e → _)).
  - by left.
  - intros m [id smp] _ IH k e. simpl.
    destruct (detectors !! id) as [d|] eqn:Hd; [|apply IH].
    rewrite lookup_insert. case_decide as Hk; [|apply IH].
    intros [= <-]. subst. by right.
Qed.

Lemma assignAll_lookup detectors (F : string → option (gmap string value))
    fresh cache k :
  (∀ id smp, (id, smp) ∈ fresh → F id = Some smp) →
  assignAll detectors cache fresh !! k =
    match (if decide (k ∈ fresh.*1) then detectors !! k else None) with
    | Some device => Some {| cd_device := device; latestSamples := F k |}
    | None => cache !! k
    end.
Proof.
  unfold assignAll. revert cache.
  induction fresh as [|[id smp] fresh IH]; intros cache HF;
    [done|rewrite fmap_cons; cbn [foldl fst snd]].
  - rewrite IH; [|intros ???; apply HF; by right].
    assert (F id = Some smp) as HFid by (apply HF; left).
    destruct (decide (k = id)) as [->|Hne].
    + rewrite (decide_True (P := id ∈ id :: fresh.*1)); [|left].
      destruct (detectors !! id) as [d|] eqn:Hd.
      * case_decide; [done|]. by rewrite lookup_insert_eq, HFid.
      * by case_decide.
    + assert (k ∈ id :: fresh.*1 ↔ k ∈ fresh.*1) as Hiff.
      { rewrite elem_of_cons. intuition congruence. }
      destruct (decide (k ∈ fresh.*1)) as [Hin|Hin].
      * rewrite decide_True; [|by apply Hiff].
        destruct (detectors !! k); [done|].
        destruct (detectors !! id); [|done]. by rewrite lookup_insert_ne.
      * rewrite decide_False; [|by rewrite Hiff].
        destruct (detectors !! id); [|done]. by rewrite lookup_insert_ne.
Qed.

Lemma Promise_all_Ok {A} (rs : list (result A)) l :
  Promise_all rs = Ok l → rs = Ok <$> l.
Proof.
  revert l. induction rs as [|[a|e] rs IH]; intros l; simpl.
  - by intros [= <-].
  - destruct (Promise_all rs) as [l'|e]; [|done].
    intros [= <-]. simpl. f_equal. by apply IH.
  - done.
Qed.

Lemma Promise_all_resolves {A} (rs : list (result A)) :
  (∀ r, r ∈ rs → ∃ a, r = Ok a) → ∃ l, Promise_all rs = Ok l.
Proof.
  induction rs as [|r rs IH]; intros H; simpl; [by eexists|].
  destruct (H r) as [a ->]; [left|].
  destruct IH as [l ->]; [|by eexists].
  intros r' Hr'. apply H. by right.
Qed.

Lemma fetchOutcome_settles accessToken d r :
  settlesTo (fetchLatestSamples accessToken d) r
  ↔ fetchOutcome accessToken d = r.
Proof.
  unfold settlesTo. split.
  - intros H.
    specialize (H {| tokenFile := NoFile; samplesFile := NoFile; trace := [] |}).
    by rewrite fetchLatestSamples_run in H.
  - intros <- s. by rewrite fetchLatestSamples_run.
Qed.

Lemma fetchOutcome_Some accessToken d id smp :
  fetchOutcome accessToken d = Ok (Some (id, smp)) →
  expired accessToken = false ∧ id = dev_id d ∧ freshFields id = Some smp.
Proof.
  unfold fetchOutcome, freshFields.
  destruct (expired accessToken); [done|].
  destruct (wreck w (latestSamplesPath (dev_id d))) as [|[payload|]|] eqn:Hw;
    [done| |done..].
  destruct (data payload) eqn:Hdata; [|done].
  intros [= <- <-]. by rewrite Hw, Hdata.
Qed.

(** After a refresh in which every callback settled without raising,
    the cache holds, for each detector whose call succeeded, the
    detector with its fresh samples, and the prior entry everywhere
    else. *)
Lemma refreshed_lookup accessToken devs prior detectorSamples :
  Promise_all (fetchOutcome accessToken
                 <$> Object_values (detectorsOf devs)) = Ok detectorSamples →
  ∃ cache,
    refreshed accessToken (detectorsOf devs) (Some prior) = Some cache
    ∧ ∀ k, cache !! k =
        match detectorsOf devs !! k with
        | Some d =>
            match fetchOutcome accessToken d with
            | Ok (Some found) =>
                Some {| cd_device := d; latestSamples := Some found.2 |}
            | _ => prior !! k
            end
        | None => prior !! k
        end.
Proof.
  intros Hall. unfold refreshed.
  change (map (fetchOutcome accessToken)) with (fmap (M:=list) (fetchOutcome accessToken)).
  rewrite Hall, overwrite_Some. eexists; split; [done|]. intros k.
  apply Promise_all_Ok in Hall.
  set (fresh := omap (λ found, found) detectorSamples).
  assert (∀ id smp, (id, smp) ∈ fresh ↔
           ∃ d, d ∈ Object_values (detectorsOf devs)
                ∧ fetchOutcome accessToken d = Ok (Some (id, smp))) as Hfresh.
  { intros id smp. unfold fresh. rewrite list_elem_of_omap. split.
    - intros (o & Ho & ->).
      assert (Ok (Some (id, smp)) ∈ Ok <$> detectorSamples) as Hin
        by (apply list_elem_of_fmap; eauto).
      rewrite <- Hall in Hin.
      apply list_elem_of_fmap in Hin as (d & Hd & Hin). eauto.
    - intros (d & Hd & Hout). exists (Some (id, smp)). split; [|done].
      assert (Ok (Some (id, smp)) ∈ fetchOutcome accessToken
                <$> Object_values (detectorsOf devs)) as Hin
        by (apply list_elem_of_fmap; eauto).
      rewrite Hall in Hin.
      by apply list_elem_of_fmap in Hin as (o & [= <-] & Hin). }
  rewrite (assignAll_lookup _ freshFields).
  2:{ intros id smp (d & _ & Hout)%Hfresh.
      by apply fetchOutcome_Some in Hout as (_ & _ & ?). }
  destruct (detectorsOf devs !! k) as [d|] eqn:Hk; [|by case_decide].
  destruct (detectorsOf_lookup _ _ _ Hk) as (Hid & _).
  pose proof (Object_values_lookup _ _ _ Hk) as Hd.
  destruct (fetchOutcome accessToken d) as [[[id smp]|]|e] eqn:Hout.
  - destruct (fetchOutcome_Some _ _ _ _ Hout) as (_ & -> & HF).
    rewrite Hid in HF. rewrite decide_True, HF; [done|].
    apply list_elem_of_fmap. exists (k, smp). split; [done|].
    apply Hfresh. exists d. by rewrite Hid in Hout.
  - rewrite decide_False; [done|].
    intros ([id smp] & -> & (d' & Hd' & Hout')%Hfresh)%list_elem_of_fmap.
    destruct (fetchOutcome_Some _ _ _ _ Hout') as (_ & Hid' & _). simpl in *.
    apply detectorsOf_lookup_own_id in Hd'. rewrite <- Hid' in Hd'.
    rewrite Hk in Hd'. injection Hd' as <-. congruence.
  - assert (Throw e ∈ Ok <$> detectorSamples) as Hin.
    { rewrite <- Hall. apply list_elem_of_fmap. eauto. }
    by apply list_elem_of_fmap in Hin as (? & ? & ?).
Qed.

(** Whatever the callbacks do, a defined cache stays defined, loses no
    key, and every entry is a prior entry or belongs to a detector of
    this refresh. *)
Lemma refreshed_Some accessToken detectors prior :
  ∃ cache,
    refreshed accessToken detectors (Some prior) = Some cache
    ∧ dom prior ⊆ dom cache
    ∧ ∀ k e, cache !! k = Some e →
        prior !! k = Some e ∨ detectors !! k = Some (cd_device e).
Proof.
  unfold refreshed. destruct (Promise_all _) as [l|e].
  - rewrite overwrite_Some. eexists. split; [done|].
    split; [apply assignAll_dom|apply assignAll_entries].
  - exists prior. split_and!; [done..|]. by left.
Qed.

(** ** refreshMetrics *)

(** C1, as the code has it. The device list arrives, [A] and [B] are
    detectors of it, the call for [A] succeeds, the call for [B]
    returns [null], and no callback of this refresh raises. Then the
    refresh returns a cache in which the entry of [A] is the detector
    with the fresh samples and the entry of [B] is the prior one. *)
Theorem partial_failure_preserves_prior_entry
    accessToken (prior : gmap string CachedDetector) client s
    payload devs A B dA dB samplesA :
  settlesTo (getData "devices" accessToken client) (Ok (Some payload)) →
  devices payload = Some devs →
  detectorsOf devs !! A = Some dA →
  detectorsOf devs !! B = Some dB →
  settlesTo (fetchLatestSamples accessToken dA) (Ok (Some (A, samplesA))) →
  settlesTo (fetchLatestSamples accessToken dB) (Ok None) →
  (∀ d, d ∈ Object_values (detectorsOf devs) →
        ∃ r, settlesTo (fetchLatestSamples accessToken d) (Ok r)) →
  ∃ cache s',
    refreshMetrics accessToken (Some prior) client s = (Ok (Some cache), s')
    ∧ cache !! A = Some {| cd_device := dA; latestSamples := Some samplesA |}
    ∧ cache !! B = prior !! B.
Proof.
  intros Hlist Hdevs HA HB HfA HfB Hall.
  rewrite refreshMetrics_run. specialize (Hlist s).
  destruct (getData "devices" accessToken client s) as [r s1].
  simpl in Hlist. subst r. rewrite Hdevs. simpl.
  destruct (Promise_all_resolves
              (fetchOutcome accessToken <$> Object_values (detectorsOf devs)))
    as [l Hl].
  { intros r (d & -> & Hd)%list_elem_of_fmap.
    destruct (Hall d Hd) as [r Hr]. apply fetchOutcome_settles in Hr. eauto. }
  destruct (refreshed_lookup _ _ prior _ Hl) as (cache & -> & Hcache).
  eexists _, _. split; [done|].
  apply fetchOutcome_settles in HfA, HfB.
  by rewrite !Hcache, HA, HB, HfA, HfB.
Qed.


(** C10. Whenever a refresh resolves it hands back a cache with every
    key of the prior cache; and it resolves unless the token step
    raises, the device-list body is not JSON, or that body has no
    [devices]. *)
Theorem cache_keys_only_grow
    accessToken (prior : gmap string CachedDetector) client s :
  match refreshMetrics accessToken (Some prior) client s with
  | (Ok r, _) => ∃ cache, r = Some cache ∧ dom prior ⊆ dom cache
  | (Throw e, _) =>
      (ensureFreshToken accessToken client s).1 = Throw e
      ∨ wreck w "devices" = Body None
      ∨ ∃ payload, wreck w "devices" = Body (Some payload)
                   ∧ devices payload = None
  end.
Proof.
  rewrite refreshMetrics_run, getData_run.
  destruct (ensureFreshToken accessToken client s) as [[fresh|e] s1];
    [|by left].
  destruct (wreck w "devices") as [|[payload|]|]; simpl.
  - by exists prior.
  - destruct (devices payload) as [devs|] eqn:Hdevs; simpl.
    + destruct (refreshed_Some accessToken (detectorsOf devs) prior)
        as (cache & -> & Hdom & _). eauto.
    + right; right. eauto.
  - right; by left.
  - by exists prior.
Qed.

(** A device that is no detector of the current list keeps its prior
    entry through a refresh that resolves. *)
Lemma refresh_keeps_entries_of_absent_devices
    accessToken (prior : gmap string CachedDetector) client s
    payload devs k r s' :
  wreck w "devices" = Body (Some payload) →
  devices payload = Some devs →
  detectorsOf devs !! k = None →
  refreshMetrics accessToken (Some prior) client s = (Ok r, s') →
  ∃ cache, r = Some cache ∧ cache !! k = prior !! k.
Proof.
  intros Hget Hdevs Hk. rewrite refreshMetrics_run, getData_run.
  destruct (ensureFreshToken accessToken client s) as [[fresh|e] s1]; [|done].
  rewrite Hget, Hdevs. simpl. intros [= <- _].
  destruct (refreshed_Some accessToken (detectorsOf devs) prior)
    as (cache & Hc & Hdom & Hentries).
  exists cache. split; [done|].
  destruct (cache !! k) as [e|] eqn:He.
  - destruct (Hentries _ _ He) as [->|Hd]; [done|congruence].
  - apply not_elem_of_dom in He. symmetry. apply not_elem_of_dom. set_solver.
Qed.

(** ** Rendering *)

Lemma metricLines_metricsOfEntry k detector :
  hasSamples detector →
  metricLines detector
  = Ok ((λ t, metricToString t.1.2 t.2) <$> metricsOfEntry (k, detector)).
Proof.
  intros [fields Hf]. unfold metricLines, metricsOfEntry. simpl.
  rewrite Hf. simpl. by rewrite <- list_fmap_compose.
Qed.

Lemma render_fold_throw (l : list (string * CachedDetector)) e :
  foldl (λ acc entry,
           acc ← acc;
           metricLines ← metricLines entry.2;
           Ok (acc ++ metricLines)) (Throw e) l = Throw e.
Proof. induction l as [|x l IH]; [done|apply IH]. Qed.

Lemma render_fold (l : list (string * CachedDetector)) acc :
  foldl (λ acc entry,
           acc ← acc;
           metricLines ← metricLines entry.2;
           Ok (acc ++ metricLines)) (Ok acc) l
  = if decide (Forall (λ entry, hasSamples entry.2) l)
    then Ok (acc ++ ((λ t, metricToString t.1.2 t.2)
                       <$> (l ≫= metricsOfEntry)))
    else Throw TypeError.
Proof.
  revert acc. induction l as [|[k d] l IH]; intros acc.
  - simpl. by rewrite app_nil_r.
  - cbn [foldl]. destruct (latestSamples d) as [fields|] eqn:Hd.
    + rewrite (metricLines_metricsOfEntry k) by (by exists fields).
      cbn [mbind result_bind snd]. rewrite IH.
      destruct (decide (Forall _ l)) as [Hl|Hl].
      * rewrite decide_True.
        2:{ constructor; [by exists fields|done]. }
        by rewrite bind_cons, fmap_app, app_assoc.
      * rewrite decide_False; [done|]. by intros [_ ?]%Forall_cons_1.
    + replace (Ok acc ≫= λ acc0 : list string,
                 metricLines (k, d).2
                 ≫= λ metricLines : list string, Ok (acc0 ++ metricLines))
        with (@Throw (list string) TypeError)
        by (unfold metricLines; simpl; by rewrite Hd).
      rewrite render_fold_throw, decide_False; [done|].
      intros [[? Hx] _]%Forall_cons_1. simpl in Hx. congruence.
Qed.

Lemma render_run (cache : gmap string CachedDetector) :
  render (Some cache)
  = if decide (map_Forall (λ _, hasSamples) cache)
    then Ok ((λ t, metricToString t.1.2 t.2) <$> metricsOf cache)
    else Throw TypeError.
Proof.
  unfold render, metricsOf. rewrite render_fold.
  destruct (decide (Forall _ _)) as [Hl|Hl].
  - rewrite decide_True; [done|].
    apply map_Forall_to_list. eapply Forall_impl; [done|]. by intros [].
  - rewrite decide_False; [done|]. intros Hm%map_Forall_to_list.
    apply Hl. eapply Forall_impl; [done|]. by intros [].
Qed.


Lemma metricsOf_NoDup (cache : gmap string CachedDetector) :
  NoDup (metricsOf cache).
Proof.
  unfold metricsOf. apply NoDup_bind; [| |apply NoDup_map_to_list].
  - intros [k1 e1] [k2 e2] [[k e] m] _ _ H1 H2.
    apply list_elem_of_fmap in H1 as (? & [= -> -> ->] & _).
    by apply list_elem_of_fmap in H2 as (? & [= -> -> ->] & _).
  - intros [k e] _. unfold metricsOfEntry. apply NoDup_fmap_2_strong.
    + by intros ?? _ _ [= ->].
    + apply NoDup_filter, NoDup_map_to_list.
Qed.

Lemma metricToString_linePerSpec e metric :
  metricToString e metric
  = linePerSpec (dev_id (cd_device e)) (location_name (cd_device e))
                (segment_name (cd_device e)) metric.1 metric.2.
Proof. done. Qed.

(** An entry without [latestSamples] makes rendering raise. *)
Lemma render_raises_without_samples
    (cache : gmap string CachedDetector) k e :
  cache !! k = Some e → latestSamples e = None →
  render (Some cache) = Throw TypeError.
Proof.
  intros Hk He. rewrite render_run, decide_False; [done|].
  intros Hall. destruct (Hall _ _ Hk) as [? ?]. congruence.
Qed.

(** ** The cache decision and the scrape *)

Lemma useCache_true_iff document :
  (cacheDecision (Some document)).1 = true
  ↔ ∃ T W, persistedAt document = Some (Num T)
           ∧ cacheLatestSamplesForMs w = Num W
           ∧ (now w - T ≠ 0)%Z ∧ (now w - T ≤ W)%Z.
Proof.
  unfold cacheDecision.
  destruct (persistedAt document) as [[|T]|]; simpl;
    [by split; [|intros (? & ? & ? & _)]|
     |by split; [|intros (? & ? & ? & _)]].
  destruct (cacheLatestSamplesForMs w) as [|W]; simpl.
  - rewrite andb_false_r. by split; [|intros (? & ? & _ & ? & _)].
  - rewrite andb_true_iff, negb_true_iff, Z.eqb_neq, Z.leb_le.
    split; [intros []; by exists T, W|].
    by intros (? & ? & [= <-] & [= <-] & ? & ?).
Qed.

(** C2 at its failing input: a document persisted at the very instant
    of the scrape is never served from the cache, whatever the window;
    the scrape refreshes with its samples as the seed. *)
Theorem document_of_age_zero_is_refreshed c :
  cacheDecision (Some {| persistedAt := Some (Num (now w)); samples := c |})
  = (false, c).
Proof. unfold cacheDecision. simpl. by rewrite Z.sub_diag. Qed.

Lemma getMetrics_run client s :
  getMetrics client s =
    match login client s with
    | (Throw e, s1) => (Throw e, s1)
    | (Ok accessToken, s1) =>
        let decision := cacheDecision (loadedDocument s1) in
        if decision.1 then (render decision.2, s1)
        else (cache ← refreshMetrics accessToken decision.2 client;
              lift (render cache)) s1
    end.
Proof.
  unfold getMetrics. unfold mbind at 1. unfold M_bind at 1.
  destruct (login client s) as [[accessToken|e] s1]; [|done].
  unfold mbind at 1. unfold M_bind at 1.
  rewrite getPersistedLatestSamples_run.
  destruct (cacheDecision (loadedDocument s1)) as [[] seed]; simpl; [done|].
  reflexivity.
Qed.

(** C3, as the code has it. On the refresh branch the seed is the
    samples of the loaded document only when that document carries a
    persisted-at field; without one, as without a document, the seed
    is the empty map. *)
Theorem refresh_seed_requires_timestamp client s accessToken s1 :
  login client s = (Ok accessToken, s1) →
  (cacheDecision (loadedDocument s1)).1 = false →
  getMetrics client s =
    (cache ← refreshMetrics accessToken
               match loadedDocument s1 with
               | Some document =>
                   match persistedAt document with
                   | Some _ => samples document
                   | None => Some ∅
                   end
               | None => Some ∅
               end client;
     lift (render cache)) s1.
Proof.
  intros Hlogin Hmiss. rewrite getMetrics_run, Hlogin. simpl. rewrite Hmiss.
  unfold cacheDecision. destruct (loadedDocument s1) as [document|]; [|done].
  by destruct (persistedAt document).
Qed.

(** ** Hubs *)

Lemma ensureFreshToken_requests accessToken client s r s1 path auth :
  ensureFreshToken accessToken client s = (r, s1) →
  EvRequest path auth ∈ trace s1 → EvRequest path auth ∈ trace s.
Proof.
  rewrite ensureFreshToken_run.
  destruct (expired accessToken); [|by intros [= _ <-]].
  destruct client; [|by intros [= _ <-]].
  destruct (getToken w); intros [= _ <-]; simpl;
    rewrite !elem_of_app, ?elem_of_cons, elem_of_nil;
    intros [?|Hnew]; try done; by repeat destruct Hnew as [Hnew|Hnew].
Qed.



(** * Further properties *)

(** ** A refresh that cannot update *)

Lemma Promise_all_rejects {A} (rs : list (result A)) e :
  Throw e ∈ rs → ∃ e', Promise_all rs = Throw e'.
Proof.
  induction rs as [|r rs IH]; [by intros ?%elem_of_nil|].
  intros [<-|Hin]%elem_of_cons; [by eexists|].
  destruct r as [a|e0]; simpl; [|by eexists].
  destruct (IH Hin) as [e' ->]. by eexists.
Qed.

Lemma refreshed_rejects accessToken detectors prior d e :
  d ∈ Object_values detectors →
  fetchOutcome accessToken d = Throw e →
  refreshed accessToken detectors prior = prior.
Proof.
  intros Hd He. unfold refreshed.
  destruct (Promise_all_rejects
              (map (fetchOutcome accessToken) (Object_values detectors)) e)
    as [e' ->]; [|done].
  rewrite <- He. change (map ?f ?l) with (f <$> l).
  apply list_elem_of_fmap. eauto.
Qed.

Lemma refreshed_expired accessToken detectors
    (prior : gmap string CachedDetector) :
  expired accessToken = true →
  refreshed accessToken detectors (Some prior) = Some prior.
Proof.
  intros Hexp. unfold refreshed.
  destruct (Object_values detectors) as [|d l] eqn:Hl; simpl.
  - done.
  - unfold fetchOutcome at 1. by rewrite Hexp.
Qed.

(** X1. A refresh entered with an expired token buys a new token for
    the device list and then updates nothing: the callbacks get the
    old token and no client, so no latest-samples request goes out,
    and the prior cache is written back under a new timestamp. *)
Theorem expired_token_refresh_updates_nothing
    accessToken (prior : gmap string CachedDetector) s
    newToken payload devs :
  expired accessToken = true →
  getToken w = Some newToken →
  wreck w "devices" = Body (Some payload) →
  devices payload = Some devs →
  refreshMetrics accessToken (Some prior) (Some ClientCredentials) s
  = (Ok (Some prior),
     {| tokenFile := if tokenWriteFails w then tokenFile s
                     else Text (Some newToken);
        samplesFile :=
          if samplesWriteFails w then samplesFile s
          else Text (Some {| persistedAt := Some (Num (now w));
                             samples := Some prior |});
        trace := trace s
                 ++ [EvGetToken; EvWriteToken newToken;
                     EvRequest "devices" (access_token newToken);
                     EvWriteSamples {| persistedAt := Some (Num (now w));
                                       samples := Some prior |}] |}).
Proof.
  intros Hexp Htok Hget Hdevs.
  rewrite refreshMetrics_run, getData_run, ensureFreshToken_run.
  rewrite Hexp, Htok, Hget, Hdevs. simpl.
  rewrite refreshed_expired by done. unfold sampleRequests.
  rewrite Hexp, persistLatestSamples_run. simpl.
  rewrite app_nil_r, <- !app_assoc. done.
Qed.

(** When the device list arrives and one callback raises, the
    refresh resolves with the prior cache untouched and writes that
    cache back under a new timestamp. *)
Lemma raising_callback_run
    accessToken (prior : gmap string CachedDetector) client s
    fresh s0 payload devs d e :
  ensureFreshToken accessToken client s = (Ok fresh, s0) →
  wreck w "devices" = Body (Some payload) →
  devices payload = Some devs →
  d ∈ Object_values (detectorsOf devs) →
  settlesTo (fetchLatestSamples accessToken d) (Throw e) →
  ∃ s', refreshMetrics accessToken (Some prior) client s
        = (Ok (Some prior), s')
        ∧ tokenFile s' = tokenFile s0
        ∧ samplesFile s' =
            if samplesWriteFails w then samplesFile s0
            else Text (Some {| persistedAt := Some (Num (now w));
                               samples := Some prior |}).
Proof.
  intros Htok Hget Hdevs Hd He%fetchOutcome_settles.
  rewrite refreshMetrics_run, getData_run, Htok, Hget, Hdevs. simpl.
  rewrite (refreshed_rejects _ _ _ d e) by done.
  rewrite persistLatestSamples_run. simpl. by eexists.
Qed.

(** ** Cache hits *)

(** With a token on disk and a document whose age is not zero and
    within the window, a scrape renders the document's samples and
    does nothing else. *)
Lemma cache_hit_run s token document T W :
  tokenFile s = Text (Some token) →
  samplesFile s = Text (Some document) →
  persistedAt document = Some (Num T) →
  cacheLatestSamplesForMs w = Num W →
  (now w - T ≠ 0)%Z → (now w - T ≤ W)%Z →
  getMetrics (Some ClientCredentials) s = (render (samples document), s).
Proof.
  intros Htoken Hdoc HT HW Hage Hwindow.
  rewrite getMetrics_run, login_run. unfold loadedToken. rewrite Htoken.
  simpl. unfold loadedDocument. rewrite Hdoc.
  assert ((cacheDecision (Some document)).1 = true) as Hhit.
  { apply useCache_true_iff. by exists T, W. }
  rewrite Hhit. unfold cacheDecision. by rewrite HT.
Qed.

(** ** The detector map and the upstream traffic *)

Lemma foldl_snoc {A B} (f : A → B → A) a l x :
  foldl f a (l ++ [x]) = f (foldl f a l) x.
Proof. revert a. induction l as [|y l IH]; intros a; [done|apply IH]. Qed.

Lemma detectorsOf_snoc devs dev :
  detectorsOf (devs ++ [dev])
  = if deviceIsNotAHub dev
    then <[dev_id dev := decorateDevice dev]> (detectorsOf devs)
    else detectorsOf devs.
Proof.
  unfold detectorsOf. rewrite List.filter_app. simpl.
  destruct (deviceIsNotAHub dev); [by rewrite foldl_snoc|by rewrite app_nil_r].
Qed.

Lemma detectorsOf_is_Some devs dev :
  dev ∈ devs → deviceType dev ≠ "HUB" →
  is_Some (detectorsOf devs !! dev_id dev).
Proof.
  induction devs as [|x devs IH] using rev_ind; [by intros ?%elem_of_nil|].
  intros [Hin|Heq%list_elem_of_singleton]%elem_of_app Hhub;
    [|subst x]; rewrite detectorsOf_snoc.
  - destruct (deviceIsNotAHub x); [|by apply IH].
    rewrite lookup_insert. case_decide; [by eexists|by apply IH].
  - apply deviceIsNotAHub_true in Hhub. rewrite Hhub, lookup_insert_eq.
    by eexists.
Qed.

(** X11. Of the listed devices that share an id and are no hubs, the
    last one is the detector kept under that id; hubs that share the
    id do not displace it. *)
Theorem later_device_with_same_id_wins devs1 dev devs2 :
  deviceType dev ≠ "HUB" →
  (∀ d, d ∈ devs2 → dev_id d = dev_id dev → deviceType d = "HUB") →
  detectorsOf (devs1 ++ dev :: devs2) !! dev_id dev
  = Some (decorateDevice dev).
Proof.
  intros Hdev%deviceIsNotAHub_true.
  induction devs2 as [|x devs2 IH] using rev_ind; intros Hlater.
  - by rewrite detectorsOf_snoc, Hdev, lookup_insert_eq.
  - replace (devs1 ++ dev :: devs2 ++ [x])
      with ((devs1 ++ dev :: devs2) ++ [x]) by by rewrite <- app_assoc.
    rewrite detectorsOf_snoc.
    assert (detectorsOf (devs1 ++ dev :: devs2) !! dev_id dev
            = Some (decorateDevice dev)) as Hrec.
    { apply IH. intros d Hd. apply Hlater, elem_of_app. by left. }
    destruct (deviceIsNotAHub x) eqn:Hx; [|done].
    rewrite lookup_insert_ne; [done|]. intros Hid.
    apply deviceIsNotAHub_true in Hx. apply Hx, Hlater; [|done].
    apply elem_of_app. right. by left.
Qed.

Lemma sampleRequests_by_id accessToken detectors :
  (∀ k d, detectors !! k = Some d → dev_id d = k) →
  expired accessToken = false →
  sampleRequests accessToken detectors
  = (λ id, EvRequest (latestSamplesPath id) (access_token accessToken))
      <$> (map_to_list detectors).*1.
Proof.
  intros Hkeys Hexp. unfold sampleRequests, Object_values. rewrite Hexp.
  change (map ?f ?l) with (f <$> l).
  rewrite <- !list_fmap_compose. apply list_fmap_ext.
  intros i [k d] Hi. simpl.
  rewrite (Hkeys k d); [done|].
  eapply elem_of_map_to_list, list_elem_of_lookup_2, Hi.
Qed.

(** X6. With an unexpired token and the device list at hand, a
    refresh resolves and its traffic is the device-list request, then
    one latest-samples request for each id of a listed device that is
    no hub, each id once however often it is listed, then the write of
    the cache it returns. *)
Theorem refresh_asks_each_detector_once
    accessToken (prior : gmap string CachedDetector) client s payload devs :
  expired accessToken = false →
  wreck w "devices" = Body (Some payload) →
  devices payload = Some devs →
  ∃ cache ids s',
    refreshMetrics accessToken (Some prior) client s = (Ok (Some cache), s')
    ∧ NoDup ids
    ∧ (∀ id, id ∈ ids ↔ ∃ dev, dev ∈ devs ∧ deviceType dev ≠ "HUB"
                               ∧ dev_id dev = id)
    ∧ trace s'
      = trace s
        ++ EvRequest "devices" (access_token accessToken)
           :: ((λ id, EvRequest (latestSamplesPath id)
                                (access_token accessToken)) <$> ids)
        ++ [EvWriteSamples {| persistedAt := Some (Num (now w));
                              samples := Some cache |}].
Proof.
  intros Hexp Hget Hdevs.
  rewrite refreshMetrics_run, getData_run, ensureFreshToken_run.
  rewrite Hexp, Hget, Hdevs. simpl.
  destruct (refreshed_Some accessToken (detectorsOf devs) prior)
    as (cache & -> & _).
  exists cache, (map_to_list (detectorsOf devs)).*1. eexists.
  split; [done|]. split; [apply NoDup_fst_map_to_list|]. split.
  - intros id. split.
    + intros ([k d] & -> & Hkd%elem_of_map_to_list)%list_elem_of_fmap.
      apply detectorsOf_lookup in Hkd as (Hid & _ & dev & ? & ? & ->).
      by exists dev.
    + intros (dev & Hin & Hhub & <-).
      destruct (detectorsOf_is_Some _ _ Hin Hhub) as [d Hd].
      apply list_elem_of_fmap. exists (dev_id dev, d).
      split; [done|]. by apply elem_of_map_to_list.
  - rewrite persistLatestSamples_run. simpl.
    rewrite sampleRequests_by_id; [|..|done].
    + by rewrite <- !app_assoc.
    + intros k d Hkd. by apply detectorsOf_lookup in Hkd as (? & _).
Qed.

Lemma sampleRequests_token accessToken detectors path auth :
  EvRequest path auth ∈ sampleRequests accessToken detectors →
  expired accessToken = false ∧ auth = access_token accessToken.
Proof.
  unfold sampleRequests. destruct (expired accessToken);
    [by intros ?%elem_of_nil|].
  change (map ?f ?l) with (f <$> l).
  by intros (d & [= _ ->] & _)%list_elem_of_fmap.
Qed.

(** X7. Every request a refresh sends carries the bearer of the token
    in force: that of the given token when it has not expired, and
    otherwise that of the token the exchange has just returned, which
    is sent as it comes, without a test of its own expiry. *)
Theorem requests_carry_the_token_in_force
    accessToken (prior : option (gmap string CachedDetector)) client s
    r s' path auth :
  refreshMetrics accessToken prior client s = (r, s') →
  EvRequest path auth ∈ trace s' →
  EvRequest path auth ∈ trace s
  ∨ (expired accessToken = false ∧ auth = access_token accessToken)
  ∨ (expired accessToken = true
     ∧ ∃ t, getToken w = Some t ∧ auth = access_token t).
Proof.
  rewrite refreshMetrics_run, getData_run.
  destruct (ensureFreshToken accessToken client s) as [[fresh|e] s0] eqn:Htok.
  2:{ intros [= _ <-] Hin. left. eapply ensureFreshToken_requests; eauto. }
  assert ((expired accessToken = false ∧ fresh = accessToken)
          ∨ (expired accessToken = true ∧ getToken w = Some fresh)) as Hfresh.
  { rewrite ensureFreshToken_run in Htok.
    destruct (expired accessToken); [right|left; by injection Htok as ->].
    destruct client; [|done]. destruct (getToken w); [|done].
    by injection Htok as ->. }
  assert (∀ es, EvRequest path auth
                ∈ trace (emit (EvRequest "devices" (access_token fresh)) s0)
                  ++ es →
            (EvRequest path auth ∈ es → expired accessToken = false
                                        ∧ auth = access_token accessToken) →
            EvRequest path auth ∈ trace s
            ∨ (expired accessToken = false ∧ auth = access_token accessToken)
            ∨ (expired accessToken = true
               ∧ ∃ t, getToken w = Some t ∧ auth = access_token t)) as Hcases.
  { intros es. simpl. rewrite !elem_of_app, list_elem_of_singleton.
    intros [[Hin|[= _ ->]]|Hin] Hes.
    - left. eapply ensureFreshToken_requests; eauto.
    - destruct Hfresh as [[? ->]|[? ?]]; [by auto|].
      right; right. split; [done|]. by exists fresh.
    - by auto. }
  destruct (wreck w "devices") as [|[payload|]|].
  4:{ intros [= _ <-] Hin. apply (Hcases []); [by rewrite app_nil_r|].
      by intros ?%elem_of_nil. }
  - intros [= _ <-] Hin. apply (Hcases []); [by rewrite app_nil_r|].
    by intros ?%elem_of_nil.
  - destruct (devices payload) as [devs|].
    + simpl. rewrite persistLatestSamples_run. intros [= _ <-]. simpl.
      rewrite <- app_assoc. intros Hin. eapply Hcases; [done|].
      intros [Hreq|[=]%list_elem_of_singleton]%elem_of_app.
      by apply sampleRequests_token in Hreq.
    + intros [= _ <-] Hin. apply (Hcases []); [by rewrite app_nil_r|].
      by intros ?%elem_of_nil.
  - intros [= _ <-] Hin. apply (Hcases []); [by rewrite app_nil_r|].
    by intros ?%elem_of_nil.
Qed.

(** ** What a refresh keeps true of the cache *)

Lemma assignAll_fresh_entries detectors cache fresh k e :
  assignAll detectors cache fresh !! k = Some e →
  cache !! k = Some e
  ∨ (detectors !! k = Some (cd_device e) ∧ hasSamples e).
Proof.
  unfold assignAll. revert k e.
  apply (foldl_invariant
           (λ m : gmap string CachedDetector, ∀ k e, m !! k = Some e → _)).
  - by left.
  - intros m [id smp] _ IH k e. simpl.
    destruct (detectors !! id) as [d|] eqn:Hd; [|apply IH].
    rewrite lookup_insert. case_decide as Hk; [|apply IH].
    intros [= <-]. subst. right. split; [done|]. by eexists.
Qed.

Lemma refreshed_entries accessToken detectors prior :
  ∃ cache,
    refreshed accessToken detectors (Some prior) = Some cache
    ∧ ∀ k e, cache !! k = Some e →
        prior !! k = Some e
        ∨ (detectors !! k = Some (cd_device e) ∧ hasSamples e).
Proof.
  unfold refreshed. destruct (Promise_all _) as [l|e].
  - rewrite overwrite_Some. eexists. split; [done|].
    apply assignAll_fresh_entries.
  - exists prior. split; [done|]. by left.
Qed.

(** X8. A refresh keeps the cache well formed: if every prior entry
    carries samples and sits under the id of its own device, so does
    every entry of the cache the refresh returns. *)
Theorem refresh_keeps_entries_well_formed
    accessToken (prior : gmap string CachedDetector) client s r s' :
  map_Forall (λ k e, hasSamples e ∧ dev_id (cd_device e) = k) prior →
  refreshMetrics accessToken (Some prior) client s = (Ok r, s') →
  ∃ cache, r = Some cache
           ∧ map_Forall (λ k e, hasSamples e ∧ dev_id (cd_device e) = k)
                        cache.
Proof.
  intros Hprior. rewrite refreshMetrics_run, getData_run.
  destruct (ensureFreshToken accessToken client s) as [[fresh|e] s0]; [|done].
  destruct (wreck w "devices") as [|[payload|]|]; [| |done|].
  3:{ intros [= <- _]. by exists prior. }
  - intros [= <- _]. by exists prior.
  - destruct (devices payload) as [devs|]; [|done]. simpl.
    destruct (refreshed_entries accessToken (detectorsOf devs) prior)
      as (cache & -> & Hentries).
    intros [= <- _]. exists cache. split; [done|].
    intros k e [Hk|[Hk Hsamples]]%Hentries; [by apply Hprior|].
    by apply detectorsOf_lookup in Hk as (? & _).
Qed.

(** X10. The lines of a detector whose latest-samples call succeeded
    are, up to order, those of the fields of the answer's [data] other
    than [time] and [relayDeviceType]: turning [time] into a date, or
    adding it, changes nothing of what is rendered. *)
Theorem fresh_detector_renders_its_data_fields accessToken d id fetched :
  settlesTo (fetchLatestSamples accessToken d) (Ok (Some (id, fetched))) →
  ∃ payload fields lines,
    wreck w (latestSamplesPath (dev_id d)) = Body (Some payload)
    ∧ data payload = Some fields
    ∧ metricLines {| cd_device := d; latestSamples := Some fetched |}
      = Ok lines
    ∧ lines ≡ₚ metricToString {| cd_device := d; latestSamples := None |}
                <$> filter (λ metric : string * value,
                              metric.1 ∉ notMetrics) (map_to_list fields).
Proof.
  intros Hfetch%fetchOutcome_settles. unfold fetchOutcome in Hfetch.
  destruct (expired accessToken); [done|].
  destruct (wreck w (latestSamplesPath (dev_id d))) as [|[payload|]|];
    [done| |done..].
  destruct (data payload) as [fields|] eqn:Hdata; [|done].
  injection Hfetch as <- <-. exists payload, fields. eexists.
  split_and!; [done..|].
  change (metricToString {| cd_device := d; latestSamples := None |})
    with (metricToString
            {| cd_device := d;
               latestSamples :=
                 Some (<["time":=epochToDate (fields !! "time")]> fields) |}).
  apply fmap_Permutation, NoDup_Permutation.
  - apply NoDup_filter, NoDup_map_to_list.
  - apply NoDup_filter, NoDup_map_to_list.
  - intros [field v]. rewrite !list_elem_of_filter, !elem_of_map_to_list.
    simpl. split; intros [Hmetric Hlookup]; (split; [done|]).
    + rewrite lookup_insert_ne in Hlookup; [done|].
      intros <-. apply Hmetric. left.
    + rewrite lookup_insert_ne; [done|].
      intros <-. apply Hmetric. left.
Qed.

(** ** When the upstream misbehaves *)

(** X13. With the token endpoint down: when no token is on disk a
    scrape rejects after the one exchange attempt; when an expired
    token is on disk a scrape is still served from a cache hit and
    rejects on a miss. In no case is a data request sent or a file
    written. *)
Theorem token_endpoint_down_fails_only_a_miss s :
  getToken w = None →
  (loadedToken s = None →
     getMetrics (Some ClientCredentials) s
     = (Throw OAuthError, emit EvGetToken s))
  ∧ (∀ token, loadedToken s = Some token → expired token = true →
       getMetrics (Some ClientCredentials) s
       = if (cacheDecision (loadedDocument s)).1
         then (render (cacheDecision (loadedDocument s)).2, s)
         else (Throw (RefreshError OAuthError), emit EvGetToken s)).
Proof.
  intros Hdown. split.
  - intros Hnone. by rewrite getMetrics_run, login_run, Hnone, Hdown.
  - intros token Htoken Hexp. rewrite getMetrics_run, login_run, Htoken.
    simpl. destruct (cacheDecision (loadedDocument s)).1; [done|].
    unfold mbind, M_bind.
    by rewrite refreshMetrics_run, getData_run, ensureFreshToken_run,
      Hexp, Hdown.
Qed.

(** A device-list answer that is not JSON, or that parses to a value
    taken for true without [devices], makes the refresh raise once the
    request has gone out; nothing is merged and nothing is written. *)
Lemma malformed_device_list_run
    accessToken (prior : option (gmap string CachedDetector)) client s
    fresh s0 :
  ensureFreshToken accessToken client s = (Ok fresh, s0) →
  wreck w "devices" = Body None
  ∨ (∃ payload, wreck w "devices" = Body (Some payload)
                ∧ devices payload = None) →
  ∃ e, refreshMetrics accessToken prior client s
       = (Throw e, emit (EvRequest "devices" (access_token fresh)) s0)
       ∧ (e = SyntaxError ∨ e = TypeError).
Proof.
  intros Htok Hbad. rewrite refreshMetrics_run, getData_run, Htok.
  destruct Hbad as [->|(payload & -> & Hdevs)].
  - exists SyntaxError. by split; [|left].
  - rewrite Hdevs. exists TypeError. by split; [|right].
Qed.

(** ** What a scrape leaves on the disk *)




End Exporter.

(** * Successive scrapes *)

Section Successive.

Context {value : Type}.
Context (ToString : value → string).
Context (epochToDate : option value → value).
Context (parseDate : value → value).


End Successive.

(** * The exporter with its log calls

    The functions of lines 61-293 once more, now with every call of
    [log] in its place. [config.logLevel] is [Some] string, or [None]
    when the configuration does not define it, as [src/config.js]
    does not. What [log] prints is not kept; whether it raises is. *)

Module Configured.
Section Logged.

Context {value : Type}.
Context (ToString : value → string).
Context (epochToDate : option value → value).
Context (parseDate : value → value).
Variable w : @World value.
Variable logLevel : option string.

Local Abbreviation M := (@M value).
Local Abbreviation Device := (@Device value).
Local Abbreviation CachedDetector := (@CachedDetector value).
Local Abbreviation Document := (@Document value).
Local Abbreviation Payload := (@Payload value).

(** [log(level, ...)] at a call site: lines 54-59. *)
Definition log (level : Level) : M unit :=
  lift (_ ← log logLevel level; Ok tt).

(** ** Persistence (lines 61-121) *)

Definition persistAccessToken (accessToken : AccessToken) : M unit :=
  _ ← log LDebug;
  try_catch (writeTokenFile w accessToken) (λ _, log LLog).

Definition getPersistedAccesstoken : M (option AccessToken) :=
  try_catch
    (accessTokenJson ← readTokenFile;
     JSON_parse accessTokenJson)
    (λ _, _ ← log LError; mret None).

Definition persistLatestSamples
    (latestSamples : option (gmap string CachedDetector)) : M unit :=
  _ ← log LDebug;
  try_catch
    (writeSamplesFile w {| persistedAt := Some (Num (now w));
                           samples := latestSamples |})
    (λ _, log LError).

Definition getPersistedLatestSamples : M (option Document) :=
  _ ← log LDebug;
  try_catch
    (latestSamplesJson ← readSamplesFile;
     JSON_parse latestSamplesJson)
    (λ _, _ ← log LError; mret None).

(** ** Token handling (lines 123-163) *)

Definition fetchNewToken (client : option Client) : M AccessToken :=
  try_catch (client_getToken w client)
            (λ error, _ ← log LError; throw error).

Definition login (client : option Client) : M AccessToken :=
  accessTokenJSONString ← getPersistedAccesstoken;
  match accessTokenJSONString with
  | Some persisted =>
      _ ← log LDebug;
      match client with
      | Some _ => mret persisted
      | None => throw TypeError
      end
  | None =>
      _ ← log LDebug;
      accessToken ← fetchNewToken client;
      _ ← persistAccessToken accessToken;
      mret accessToken
  end.

Definition ensureFreshToken (accessToken : AccessToken)
    (client : option Client) : M AccessToken :=
  if expired w accessToken then
    try_catch
      (newAccessToken ← fetchNewToken client;
       _ ← persistAccessToken newAccessToken;
       mret newAccessToken)
      (λ error, _ ← log LError; throw (RefreshError error))
  else mret accessToken.

(** ** Upstream calls (lines 165-185) *)

Definition getData (resourcePath : string) (accessToken : AccessToken)
    (client : option Client) : M (option Payload) :=
  freshAccessToken ← ensureFreshToken accessToken client;
  payload ← try_catch
    (_ ← log LDebug;
     M_map Some (Wreck_get w resourcePath (access_token freshAccessToken)))
    (λ _, _ ← log LError; mret None);
  match payload with
  | None => mret None
  | Some text => JSON_parse text
  end.

(** ** refreshMetrics (lines 201-251) *)

Definition fetchLatestSamples (accessToken : AccessToken)
    (detector : Device) : M (option (string * gmap string value)) :=
  devicePayload ← getData (latestSamplesPath (dev_id detector))
                          accessToken None;
  match devicePayload with
  | Some payload =>
      match data payload with
      | Some fields =>
          mret (Some (dev_id detector,
                      <["time" := epochToDate (fields !! "time")]> fields))
      | None => throw TypeError
      end
  | None => mret None
  end.

Definition refreshMetrics (accessToken : AccessToken)
    (cachedLatestSamples : option (gmap string CachedDetector))
    (client : option Client) : M (option (gmap string CachedDetector)) :=
  let latestSamples := cachedLatestSamples in
  devicesPayload ← getData "devices" accessToken client;
  match devicesPayload with
  | None => _ ← log LError; mret latestSamples
  | Some payload =>
      match devices payload with
      | None => throw TypeError
      | Some devices =>
          let detectors := detectorsOf parseDate devices in
          _ ← log LDebug;
          _ ← log LDebug;
          _ ← log LDebug;
          latestSamples ←
            try_catch
              (settled ← traverse
                 (λ detector, settle (fetchLatestSamples accessToken detector))
                 (Object_values detectors);
               detectorSamples ← lift (Promise_all settled);
               lift (overwrite detectors latestSamples
                       (omap (λ found, found) detectorSamples)))
              (λ _, _ ← log LError; mret latestSamples);
          _ ← persistLatestSamples latestSamples;
          mret latestSamples
      end
  end.

(** ** getMetrics (lines 253-293) *)

(** Lines 260-277 with their log calls: the pair
    [(useCache, cachedLatestSamples)]. *)
Definition examine (persistedSamplesResponse : option Document)
    : M (bool * option (gmap string CachedDetector)) :=
  match persistedSamplesResponse with
  | Some document =>
      _ ← log LDebug;
      match persistedAt document with
      | Some parsed =>
          let latestSamplesCacheAge := js_sub_from (now w) parsed in
          if truthy latestSamplesCacheAge
             && js_le latestSamplesCacheAge (cacheLatestSamplesForMs w)
          then _ ← log LDebug; mret (true, samples document)
          else _ ← log LDebug; mret (false, samples document)
      | None => _ ← log LWarn; mret (false, Some ∅)
      end
  | None => _ ← log LDebug; mret (false, Some ∅)
  end.

Definition getMetrics (client : option Client) : M (list string) :=
  accessToken ← login client;
  persistedSamplesResponse ← getPersistedLatestSamples;
  decision ← examine persistedSamplesResponse;
  let '(useCache, cachedLatestSamples) := decision in
  cachedLatestSamples ←
    (if negb useCache
     then refreshMetrics accessToken cachedLatestSamples client
     else _ ← log LDebug; mret cachedLatestSamples);
  lift (render ToString cachedLatestSamples).

End Logged.
End Configured.

(** ** With a level configured, the log calls change nothing *)

Section ConfiguredFacts.

Context {value : Type}.
Context (ToString : value → string).
Context (epochToDate : option value → value).
Context (parseDate : value → value).
Variable w : @World value.

Lemma log_configured l level (s : @Disk value) :
  Configured.log (Some l) level s = (Ok tt, s).
Proof. done. Qed.


Lemma getPersistedAccesstoken_configured l :
  Configured.getPersistedAccesstoken (Some l)
  = getPersistedAccesstoken (value := value).
Proof. reflexivity. Qed.


Lemma getPersistedLatestSamples_configured l :
  Configured.getPersistedLatestSamples (Some l)
  = getPersistedLatestSamples (value := value).
Proof. reflexivity. Qed.

Lemma fetchNewToken_configured l :
  Configured.fetchNewToken w (Some l) = fetchNewToken w.
Proof. reflexivity. Qed.

Lemma login_configured l client s :
  Configured.login w (Some l) client s = login w client s.
Proof.
  unfold Configured.login, login.
  rewrite getPersistedAccesstoken_configured. unfold mbind, M_bind.
  by destruct (getPersistedAccesstoken s) as [[[t|]|e] s1].
Qed.

Lemma ensureFreshToken_configured l :
  Configured.ensureFreshToken w (Some l) = ensureFreshToken w.
Proof. reflexivity. Qed.

Lemma getData_configured l :
  Configured.getData w (Some l) = getData w.
Proof. reflexivity. Qed.

Lemma fetchLatestSamples_configured l :
  Configured.fetchLatestSamples epochToDate w (Some l)
  = fetchLatestSamples epochToDate w.
Proof. reflexivity. Qed.

Lemma refreshMetrics_configured l :
  Configured.refreshMetrics epochToDate parseDate w (Some l)
  = refreshMetrics epochToDate parseDate w.
Proof. reflexivity. Qed.

Lemma examine_configured l document (s : @Disk value) :
  Configured.examine w (Some l) document s = (Ok (cacheDecision w document), s).
Proof.
  unfold Configured.examine, cacheDecision.
  destruct document as [document|]; [|done].
  destruct (persistedAt document) as [parsed|]; [|done].
  simpl. by destruct (truthy _ && js_le _ _).
Qed.

Lemma getMetrics_configured l client s :
  Configured.getMetrics ToString epochToDate parseDate w (Some l) client s
  = getMetrics ToString epochToDate parseDate w client s.
Proof.
  rewrite getMetrics_run. unfold Configured.getMetrics.
  unfold mbind at 1. unfold M_bind at 1. rewrite login_configured.
  destruct (login w client s) as [[accessToken|e] s1]; [|done].
  unfold mbind at 1. unfold M_bind at 1.
  rewrite getPersistedLatestSamples_configured, getPersistedLatestSamples_run.
  unfold mbind at 1. unfold M_bind at 1. rewrite examine_configured.
  destruct (cacheDecision w (loadedDocument s1)) as [[] seed]; simpl; [done|].
  reflexivity.
Qed.

(** ** Without a level, every log call raises *)

Lemma log_unconfigured level (s : @Disk value) :
  Configured.log None level s = (Throw TypeError, s).
Proof. done. Qed.

Lemma persistAccessToken_unconfigured t s :
  Configured.persistAccessToken w None t s = (Throw TypeError, s).
Proof. done. Qed.

Lemma persistLatestSamples_unconfigured c s :
  Configured.persistLatestSamples w None c s = (Throw TypeError, s).
Proof. done. Qed.

Lemma getPersistedLatestSamples_unconfigured (s : @Disk value) :
  Configured.getPersistedLatestSamples None s = (Throw TypeError, s).
Proof. done. Qed.

Lemma getPersistedAccesstoken_unconfigured (s : @Disk value) :
  Configured.getPersistedAccesstoken None s
  = match tokenFile s with
    | Text (Some t) => (Ok (Some t), s)
    | FalsyText => (Ok None, s)
    | _ => (Throw TypeError, s)
    end.
Proof.
  unfold Configured.getPersistedAccesstoken, try_catch, readTokenFile,
    mbind, M_bind.
  by destruct (tokenFile s) as [|[t|]|].
Qed.

Lemma login_unconfigured client s :
  Configured.login w None client s = (Throw TypeError, s).
Proof.
  unfold Configured.login. unfold mbind at 1. unfold M_bind at 1.
  rewrite getPersistedAccesstoken_unconfigured.
  by destruct (tokenFile s) as [|[t|]|].
Qed.




Lemma getMetrics_unconfigured client s :
  Configured.getMetrics ToString epochToDate parseDate w None client s
  = (Throw TypeError, s).
Proof.
  unfold Configured.getMetrics. unfold mbind at 1. unfold M_bind at 1.
  by rewrite login_unconfigured.
Qed.

(** ** Token handling *)

(** C4, as the code has it. [login] hands back whatever token is
    persisted, expired or not, with no exchange and no write; only
    when none is persisted does it perform one exchange and persist
    the one new token. The expiry test lives in [ensureFreshToken],
    which [getData] runs before every request with the client its
    caller passed: an unexpired token is returned unchanged with no
    effect; an expired one costs exactly one exchange and one write of
    the new token when a client is at hand, and raises with no
    exchange when none is. The per-device calls pass no client, so
    with an expired token they raise before any request. All this
    whatever level [config.logLevel] names. *)
Theorem login_reuses_persisted_token_ensureFresh_checks_expiry l :
  (∀ client s, Configured.login w (Some l) client s =
     match client with
     | None => (Throw TypeError, s)
     | Some _ =>
         match tokenFile s with
         | Text (Some persisted) => (Ok persisted, s)
         | _ =>
             match getToken w with
             | Some t =>
                 (Ok t,
                  {| tokenFile := if tokenWriteFails w then tokenFile s
                                  else Text (Some t);
                     samplesFile := samplesFile s;
                     trace := trace s ++ [EvGetToken; EvWriteToken t] |})
             | None => (Throw OAuthError, emit EvGetToken s)
             end
         end
     end)
  ∧ (∀ accessToken client s,
       Configured.ensureFreshToken w (Some l) accessToken client s =
       if (expires_at accessToken <=? now w)%Z then
         match client with
         | None => (Throw (RefreshError TypeError), s)
         | Some _ =>
             match getToken w with
             | Some t =>
                 (Ok t,
                  {| tokenFile := if tokenWriteFails w then tokenFile s
                                  else Text (Some t);
                     samplesFile := samplesFile s;
                     trace := trace s ++ [EvGetToken; EvWriteToken t] |})
             | None => (Throw (RefreshError OAuthError), emit EvGetToken s)
             end
         end
       else (Ok accessToken, s))
  ∧ (∀ resourcePath accessToken client s,
       Configured.getData w (Some l) resourcePath accessToken client s =
       match Configured.ensureFreshToken w (Some l) accessToken client s with
       | (Throw e, s1) => (Throw e, s1)
       | (Ok fresh, s1) =>
           (match wreck w resourcePath with
            | Rejected | Falsy => Ok None
            | Body None => Throw SyntaxError
            | Body (Some payload) => Ok (Some payload)
            end, emit (EvRequest resourcePath (access_token fresh)) s1)
       end)
  ∧ (∀ accessToken detector s,
       (expires_at accessToken ≤ now w)%Z →
       Configured.fetchLatestSamples epochToDate w (Some l)
         accessToken detector s
       = (Throw (RefreshError TypeError), s)).
Proof.
  split_and!.
  - intros client s. rewrite login_configured, login_run. unfold loadedToken.
    destruct client; by destruct (tokenFile s) as [|[t|]|].
  - intros t client s. rewrite ensureFreshToken_configured, ensureFreshToken_run.
    unfold expired.
    replace (expires_at t - now w <=? 0)%Z with (expires_at t <=? now w)%Z
      by (apply Zleb_ext; lia).
    by destruct client.
  - intros resourcePath accessToken client s.
    by rewrite getData_configured, ensureFreshToken_configured, getData_run.
  - intros accessToken detector s Hexp.
    rewrite fetchLatestSamples_configured, fetchLatestSamples_run.
    unfold fetchOutcome, expired.
    replace (expires_at accessToken - now w <=? 0)%Z with true
      by (symmetry; apply Z.leb_le; lia).
    done.
Qed.

(** ** Persistence *)


(** ** The refresh *)


(** X2. With a level set, when the device list arrives and one
    callback raises, the refresh still resolves, with the prior cache
    untouched, and writes that cache back under a new timestamp. *)
Theorem raising_callback_discards_every_update
    l accessToken (prior : gmap string CachedDetector) client s
    fresh s0 payload devs d e :
  Configured.ensureFreshToken w (Some l) accessToken client s
  = (Ok fresh, s0) →
  wreck w "devices" = Body (Some payload) →
  devices payload = Some devs →
  d ∈ Object_values (detectorsOf parseDate devs) →
  settlesTo (Configured.fetchLatestSamples epochToDate w (Some l)
               accessToken d) (Throw e) →
  ∃ s', Configured.refreshMetrics epochToDate parseDate w (Some l)
          accessToken (Some prior) client s
        = (Ok (Some prior), s')
        ∧ tokenFile s' = tokenFile s0
        ∧ samplesFile s' =
            if samplesWriteFails w then samplesFile s0
            else Text (Some {| persistedAt := Some (Num (now w));
                               samples := Some prior |}).
Proof.
  rewrite ensureFreshToken_configured, fetchLatestSamples_configured,
    refreshMetrics_configured.
  intros. by eapply raising_callback_run.
Qed.

(** X14. With a level set and the request gone out: a device-list
    answer that is not JSON, or that parses to a value taken for true
    without [devices], makes the refresh raise, with nothing merged
    and nothing written; an answer that parses to [null], [false],
    [0] or the empty string is treated like a failed call, and the
    refresh resolves with the prior cache. *)
Theorem malformed_device_list_fails_the_refresh
    l accessToken (prior : option (gmap string CachedDetector)) client s
    fresh s0 :
  Configured.ensureFreshToken w (Some l) accessToken client s
  = (Ok fresh, s0) →
  (wreck w "devices" = Body None
   ∨ (∃ payload, wreck w "devices" = Body (Some payload)
                 ∧ devices payload = None) →
   ∃ e, Configured.refreshMetrics epochToDate parseDate w (Some l)
          accessToken prior client s
        = (Throw e, emit (EvRequest "devices" (access_token fresh)) s0)
        ∧ (e = SyntaxError ∨ e = TypeError))
  ∧ (wreck w "devices" = Falsy →
     Configured.refreshMetrics epochToDate parseDate w (Some l)
       accessToken prior client s
     = (Ok prior, emit (EvRequest "devices" (access_token fresh)) s0)).
Proof.
  rewrite ensureFreshToken_configured, refreshMetrics_configured.
  intros Htok. split.
  - by apply malformed_device_list_run.
  - intros Hget. by rewrite refreshMetrics_run, getData_run, Htok, Hget.
Qed.

(** ** The scrape *)

(** X16. With the configuration of [src/config.js], which sets no
    [logLevel], [login] and with it every scrape reject with a
    [TypeError] before anything is written, exchanged or requested,
    whatever the disk holds and whatever the upstream would answer. *)
Theorem shipped_configuration_serves_no_scrape client s :
  Configured.login w None client s = (Throw TypeError, s)
  ∧ Configured.getMetrics ToString epochToDate parseDate w None client s
    = (Throw TypeError, s).
Proof. split; [apply login_unconfigured|apply getMetrics_unconfigured]. Qed.

(** X3. With a level set, a client, a token on disk and a document
    whose age is not zero and within the window, a scrape renders the
    document's samples and does nothing else: no exchange, no request,
    no write, whether or not the token has expired. *)
Theorem cache_hit_touches_nothing l s token document T W :
  tokenFile s = Text (Some token) →
  samplesFile s = Text (Some document) →
  persistedAt document = Some (Num T) →
  cacheLatestSamplesForMs w = Num W →
  (now w - T ≠ 0)%Z → (now w - T ≤ W)%Z →
  Configured.getMetrics ToString epochToDate parseDate w (Some l)
    (Some ClientCredentials) s
  = (render ToString (samples document), s).
Proof.
  rewrite getMetrics_configured. apply cache_hit_run.
Qed.

End ConfiguredFacts.


(** * Rendering a cache of any shape

    [getMetrics] renders whatever the samples file holds: the cache
    may be any JSON value, its entries too. Lines 197-199 and 286-291
    are followed here property read by property read. *)

Module Raw.
Section Render.

Context {value : Type}.
(** [`${v}`] for a value that is no string, array or plain object *)
Context (ToString : value → string).
(** the UTF-16 code units of a string, each as a string *)
Context (codeUnits : string → list string).

(** Values as [Object.entries] and the property reads see them.
    [JAtom] is a value without own enumerable properties that is
    neither [null] nor a string: a number, a boolean, a [Date]. An
    absent property, [undefined], is [None] in an [option json]. *)
#[warnings="-register-all"]
Inductive json : Type :=
  | JNull
  | JAtom (v : value)
  | JString (s : string)
  | JArray (items : list json)
  | JObject (fields : gmap string json).

(** [String(j)], as a template literal computes it. *)
Fixpoint String_of (j : json) : string :=
  match j with
  | JNull => "null"
  | JAtom v => ToString v
  | JString s => s
  | JArray items =>
      String.concat ","
        (map (λ item, match item with
                      | JNull => EmptyString
                      | _ => String_of item
                      end) items)
  | JObject _ => "[object Object]"
  end.

(** [`${x}`] *)
Definition template (x : option json) : string :=
  match x with
  | Some j => String_of j
  | None => "undefined"
  end.

(** [x.p] for the names the code reads ([latestSamples], [id],
    [location], [segment], [name]), none of which a prototype
    provides: reading off [null] or [undefined] is a [TypeError]. *)
Definition property (x : option json) (p : string) : result (option json) :=
  match x with
  | None | Some JNull => Throw TypeError
  | Some (JObject fields) => Ok (fields !! p)
  | Some _ => Ok None
  end.

(** [Object.entries(x)] *)
Definition Object_entries (x : option json) : result (list (string * json)) :=
  match x with
  | None | Some JNull => Throw TypeError
  | Some (JAtom _) => Ok []
  | Some (JString s) => Ok (imap (λ i unit, (pretty i, JString unit))
                                 (codeUnits s))
  | Some (JArray items) => Ok (imap (λ i item, (pretty i, item)) items)
  | Some (JObject fields) => Ok (map_to_list fields)
  end.

(** [l.map(f)] with a callback that may throw. *)
Fixpoint Array_map {A B} (f : A → result B) (l : list A) : result (list B) :=
  match l with
  | [] => Ok []
  | a :: rest => b ← f a; bs ← Array_map f rest; Ok (b :: bs)
  end.

(** Lines 197-199. *)
Definition metricToString (detector : json) (metric : string * json)
    : result string :=
  id ← property (Some detector) "id";
  location ← property (Some detector) "location";
  locationName ← property location "name";
  segment ← property (Some detector) "segment";
  segmentName ← property segment "name";
  Ok ("airthings_" +:+ metric.1
      +:+ "{device_id=" +:+ dquote +:+ template id +:+ dquote
      +:+ ",device_location=" +:+ dquote +:+ template locationName +:+ dquote
      +:+ ",device_segment=" +:+ dquote +:+ template segmentName +:+ dquote
      +:+ "} " +:+ template (Some metric.2)).

(** Lines 287-289. *)
Definition metricLines (detector : json) : result (list string) :=
  latestSamples ← property (Some detector) "latestSamples";
  entries ← Object_entries latestSamples;
  Array_map (metricToString detector)
            (filter (λ metric : string * json, metric.1 ∉ notMetrics) entries).

(** Lines 286-291. *)
Definition render (cachedLatestSamples : option json) : result (list string) :=
  entries ← Object_entries cachedLatestSamples;
  foldl (λ acc entry,
           acc ← acc;
           metricLines ← metricLines entry.2;
           Ok (acc ++ metricLines))
        (Ok []) entries.

(** ** The words in which rendering is described *)

(** [null] or [undefined]. *)
Definition nullish (x : option json) : bool :=
  match x with
  | None | Some JNull => true
  | Some _ => false
  end.

(** The field [p] of [x]; absent when [x] is no object or has none. *)
Definition get (x : option json) (p : string) : option json :=
  match x with
  | Some (JObject fields) => fields !! p
  | _ => None
  end.

(** The fields of [x] with their values: the members of an object,
    the items of an array and the code units of a string under their
    indices, nothing for anything else. *)
Definition entriesOf (x : option json) : list (string * json) :=
  match x with
  | Some (JObject fields) => map_to_list fields
  | Some (JArray items) => imap (λ i item, (pretty i, item)) items
  | Some (JString s) => imap (λ i unit, (pretty i, JString unit)) (codeUnits s)
  | _ => []
  end.

(** The sample fields of an entry outside the reserved names. *)
Definition metricFields (detector : json) : list (string * json) :=
  filter (λ metric : string * json, metric.1 ∉ notMetrics)
         (entriesOf (get (Some detector) "latestSamples")).

(** An entry can be rendered when it is not [null], its
    [latestSamples] is neither absent nor [null], and, if it has a
    sample field outside the reserved names, its [location] and its
    [segment] are neither absent nor [null]. *)
Definition renderable (detector : json) : bool :=
  negb (nullish (Some detector))
  && negb (nullish (get (Some detector) "latestSamples"))
  && match metricFields detector with
     | [] => true
     | _ :: _ =>
         negb (nullish (get (Some detector) "location"))
         && negb (nullish (get (Some detector) "segment"))
     end.

(** The quotation mark: character 34, bits 1 and 5 set. *)
Definition quotationMark : Ascii.ascii :=
  Ascii.Ascii false true false false false true false false.

(** [text] between two quotation marks. *)
Definition quoted (text : string) : string :=
  String quotationMark (text +:+ String quotationMark EmptyString).

(** The metric line in the words of the specification:
    airthings_<field>{device_id=<id>,device_location=<loc>,
    device_segment=<seg>} <value>, each label value quoted. *)
Definition formatLine (field id loc seg val : string) : string :=
  "airthings_" +:+ field
  +:+ "{device_id=" +:+ quoted id
  +:+ ",device_location=" +:+ quoted loc
  +:+ ",device_segment=" +:+ quoted seg
  +:+ "} " +:+ val.

(** The line of one sample field of one entry. *)
Definition lineOf (detector : json) (metric : string * json) : string :=
  formatLine metric.1
    (template (get (Some detector) "id"))
    (template (get (get (Some detector) "location") "name"))
    (template (get (get (Some detector) "segment") "name"))
    (String_of metric.2).

End Render.
End Raw.

Section RawFacts.

Context {value : Type}.
Context (ToString : value → string).
Context (codeUnits : string → list string).

Local Abbreviation json := (@Raw.json value).

Lemma property_get (x : option json) p :
  Raw.property x p
  = if Raw.nullish x then Throw TypeError else Ok (Raw.get x p).
Proof. by destruct x as [[]|]. Qed.

Lemma Object_entries_entriesOf (x : option json) :
  Raw.Object_entries codeUnits x
  = if Raw.nullish x then Throw TypeError else Ok (Raw.entriesOf codeUnits x).
Proof. by destruct x as [[]|]. Qed.

Lemma append_assoc (a b c : string) : (a +:+ b) +:+ c = a +:+ (b +:+ c).
Proof.
  induction a as [|x a IH]; [done|].
  change (String x ((a +:+ b) +:+ c) = String x (a +:+ (b +:+ c))).
  by rewrite IH.
Qed.

Lemma quoted_append (text rest : string) :
  Raw.quoted text +:+ rest = dquote +:+ text +:+ dquote +:+ rest.
Proof.
  unfold Raw.quoted.
  change (String Raw.quotationMark ((text +:+ String Raw.quotationMark "")
                                    +:+ rest)
          = String Raw.quotationMark (text +:+ String Raw.quotationMark rest)).
  by rewrite append_assoc.
Qed.

Lemma metricToString_lineOf (d : json) metric :
  Raw.nullish (Some d) = false →
  Raw.metricToString ToString d metric
  = if Raw.nullish (Raw.get (Some d) "location")
       || Raw.nullish (Raw.get (Some d) "segment")
    then Throw TypeError
    else Ok (Raw.lineOf ToString d metric).
Proof.
  intros Hd. unfold Raw.metricToString. rewrite !property_get, Hd.
  cbn [mbind result_bind]. rewrite ?property_get.
  destruct (Raw.nullish (Raw.get (Some d) "location")); [done|].
  cbn [mbind result_bind orb]. rewrite ?property_get.
  destruct (Raw.nullish (Raw.get (Some d) "segment")); [done|].
  cbn [mbind result_bind]. f_equal.
  unfold Raw.lineOf, Raw.formatLine. by rewrite !quoted_append.
Qed.

Lemma Array_map_lineOf (d : json) (fs : list (string * json)) :
  Raw.nullish (Some d) = false →
  Raw.Array_map (Raw.metricToString ToString d) fs
  = match fs with
    | [] => Ok []
    | _ :: _ =>
        if Raw.nullish (Raw.get (Some d) "location")
           || Raw.nullish (Raw.get (Some d) "segment")
        then Throw TypeError
        else Ok (Raw.lineOf ToString d <$> fs)
    end.
Proof.
  intros Hd. induction fs as [|metric fs IH]; [done|].
  cbn [Raw.Array_map]. rewrite metricToString_lineOf, IH by done.
  destruct (_ || _); [done|]. by destruct fs.
Qed.

Lemma metricLines_run (d : json) :
  Raw.metricLines ToString codeUnits d
  = if Raw.renderable codeUnits d
    then Ok (Raw.lineOf ToString d <$> Raw.metricFields codeUnits d)
    else Throw TypeError.
Proof.
  unfold Raw.metricLines, Raw.renderable.
  rewrite property_get.
  destruct (Raw.nullish (Some d)) eqn:Hd; [done|].
  cbn [mbind result_bind]. rewrite Object_entries_entriesOf.
  destruct (Raw.nullish (Raw.get (Some d) "latestSamples")); [done|].
  cbn [mbind result_bind negb andb]. rewrite Array_map_lineOf by done.
  fold (Raw.metricFields codeUnits d).
  destruct (Raw.metricFields codeUnits d); [done|].
  destruct (Raw.nullish (Raw.get (Some d) "location")); [done|].
  by destruct (Raw.nullish (Raw.get (Some d) "segment")).
Qed.

Lemma raw_render_fold_throw (l : list (string * json)) e :
  foldl (λ acc entry,
           acc ← acc;
           metricLines ← Raw.metricLines ToString codeUnits entry.2;
           Ok (acc ++ metricLines)) (Throw e) l = Throw e.
Proof. induction l as [|x l IH]; [done|apply IH]. Qed.

Lemma raw_render_fold (l : list (string * json)) acc :
  foldl (λ acc entry,
           acc ← acc;
           metricLines ← Raw.metricLines ToString codeUnits entry.2;
           Ok (acc ++ metricLines)) (Ok acc) l
  = if forallb (λ entry, Raw.renderable codeUnits entry.2) l
    then Ok (acc ++ (l ≫= λ entry,
                       Raw.lineOf ToString entry.2
                         <$> Raw.metricFields codeUnits entry.2))
    else Throw TypeError.
Proof.
  revert acc. induction l as [|[k d] l IH]; intros acc.
  - simpl. by rewrite app_nil_r.
  - cbn [foldl forallb snd mbind result_bind]. rewrite metricLines_run.
    destruct (Raw.renderable codeUnits d).
    + cbn [mbind result_bind andb]. rewrite IH.
      destruct (forallb _ l); [|done].
      by rewrite bind_cons, app_assoc.
    + apply raw_render_fold_throw.
Qed.

Lemma raw_render_run (cache : option json) :
  Raw.render ToString codeUnits cache
  = if Raw.nullish cache then Throw TypeError
    else if forallb (λ entry, Raw.renderable codeUnits entry.2)
                    (Raw.entriesOf codeUnits cache)
    then Ok (Raw.entriesOf codeUnits cache
               ≫= λ entry, Raw.lineOf ToString entry.2
                             <$> Raw.metricFields codeUnits entry.2)
    else Throw TypeError.
Proof.
  unfold Raw.render. rewrite Object_entries_entriesOf.
  destruct (Raw.nullish cache); [done|].
  cbn [mbind result_bind]. by rewrite raw_render_fold.
Qed.

Lemma imap_indices_NoDup {A B} (f : A → B) (l : list A) n :
  NoDup (imap (λ i a, (pretty (n + i)%nat, f a)) l).*1.
Proof.
  revert n. induction l as [|a l IH]; intros n; [constructor|].
  cbn [imap fmap list_fmap fst]. constructor.
  - intros ([k b] & Hk & Hin)%list_elem_of_fmap. simpl in Hk.
    apply elem_of_lookup_imap in Hin as (i & a' & [= Hki _] & _).
    rewrite <- Hk in Hki. apply (inj pretty) in Hki. simpl in Hki. lia.
  - replace (imap ((λ i a0, (pretty (n + i)%nat, f a0)) ∘ S) l)
      with (imap (λ i a0, (pretty (S n + i)%nat, f a0)) l); [apply IH|].
    apply imap_ext. intros i x _. simpl. do 2 f_equal. lia.
Qed.

Lemma NoDup_fst_functional {A B} (l : list (A * B)) k a b :
  NoDup l.*1 → (k, a) ∈ l → (k, b) ∈ l → a = b.
Proof.
  induction l as [|[k' c] l IH]; [by intros _ ?%elem_of_nil|].
  rewrite fmap_cons. intros [Hk Hl]%NoDup_cons Ha Hb. simpl in Hk.
  apply elem_of_cons in Ha as [Ha|Ha]; apply elem_of_cons in Hb as [Hb|Hb].
  - congruence.
  - injection Ha as -> ->. destruct Hk. apply list_elem_of_fmap.
    by exists (k', b).
  - injection Hb as -> ->. destruct Hk. apply list_elem_of_fmap.
    by exists (k', a).
  - by apply IH.
Qed.

Lemma fmap_bind_list {A B C} (f : B → C) (g : A → list B) (l : list A) :
  f <$> (l ≫= g) = l ≫= λ x, f <$> g x.
Proof.
  induction l as [|x l IH]; [done|].
  by rewrite !bind_cons, fmap_app, IH.
Qed.

Lemma entriesOf_NoDup (x : option json) :
  NoDup (Raw.entriesOf codeUnits x).*1.
Proof.
  destruct x as [[]|]; simpl; try constructor.
  - apply (imap_indices_NoDup Raw.JString _ 0).
  - apply (imap_indices_NoDup id _ 0).
  - apply NoDup_fst_map_to_list.
Qed.

Lemma metricFields_NoDup (d : json) :
  NoDup ((Raw.metricFields codeUnits d).*1).
Proof.
  unfold Raw.metricFields.
  pose proof (entriesOf_NoDup (Raw.get (Some d) "latestSamples")) as Hnodup.
  apply NoDup_fmap_2_strong.
  - intros [f1 v1] [f2 v2] [_ H1]%list_elem_of_filter
      [_ H2]%list_elem_of_filter Heq. simpl in Heq. subst f2.
    f_equal. by eapply NoDup_fst_functional.
  - apply NoDup_filter. by eapply NoDup_fmap_1.
Qed.

(** ** Rendering *)


(** C7, as the code has it. When rendering completes, the lines are,
    one for one, the sample fields outside the reserved names of the
    entries of the cache: each such field of each entry gives exactly
    one line, of the form
    airthings_<field>{device_id=<id>,device_location=<loc>,
    device_segment=<seg>} <value> with the label values quoted, and no
    line comes from a reserved name. *)
Theorem completed_rendering_has_one_line_per_metric_field
    (cache : option json) lines :
  Raw.render ToString codeUnits cache = Ok lines →
  ∃ metrics : list (string * json * (string * json)),
    lines = (λ m, Raw.formatLine m.2.1
                    (Raw.template ToString (Raw.get (Some m.1.2) "id"))
                    (Raw.template ToString
                       (Raw.get (Raw.get (Some m.1.2) "location") "name"))
                    (Raw.template ToString
                       (Raw.get (Raw.get (Some m.1.2) "segment") "name"))
                    (Raw.template ToString (Some m.2.2))) <$> metrics
    ∧ NoDup ((λ m, (m.1.1, m.2.1)) <$> metrics)
    ∧ ∀ k d f v,
        (k, d, (f, v)) ∈ metrics
        ↔ (k, d) ∈ Raw.entriesOf codeUnits cache
          ∧ (f, v) ∈ Raw.entriesOf codeUnits (Raw.get (Some d) "latestSamples")
          ∧ f ∉ notMetrics.
Proof.
  rewrite raw_render_run. destruct (Raw.nullish cache); [done|].
  destruct (forallb _ _); [|done]. intros [= <-].
  set (es := Raw.entriesOf codeUnits cache).
  pose proof (entriesOf_NoDup cache) as Hes. fold es in Hes.
  exists (es ≫= λ entry, (λ metric, (entry.1, entry.2, metric))
                           <$> Raw.metricFields codeUnits entry.2).
  split_and!.
  - rewrite fmap_bind_list. clear Hes.
    induction es as [|[k d] es IH]; [done|].
    rewrite !bind_cons, IH. f_equal.
    by rewrite <- list_fmap_compose.
  - rewrite fmap_bind_list. apply NoDup_bind.
    + intros [k1 d1] [k2 d2] [k f] Hin1 Hin2 Hy1 Hy2.
      rewrite <- list_fmap_compose in Hy1, Hy2.
      apply list_elem_of_fmap in Hy1 as (m1 & [= -> _] & _).
      apply list_elem_of_fmap in Hy2 as (m2 & [= -> _] & _).
      simpl in *. f_equal. by eapply NoDup_fst_functional.
    + intros [k d] _. simpl. rewrite <- list_fmap_compose.
      apply NoDup_fmap_2_strong.
      * intros [f1 v1] [f2 v2] H1 H2 [= ->]. f_equal.
        pose proof (metricFields_NoDup d) as Hd.
        by eapply NoDup_fst_functional.
      * eapply NoDup_fmap_1, metricFields_NoDup.
    + by eapply NoDup_fmap_1.
  - intros k d f v. rewrite list_elem_of_bind. split.
    + intros ([k' d'] & Hm & Hin).
      apply list_elem_of_fmap in Hm as ([f' v'] & [= -> -> -> ->] & Hm).
      by apply list_elem_of_filter in Hm as [? ?].
    + intros (Hin & Hf & Hreserved). exists (k, d). split; [|done].
      apply list_elem_of_fmap. exists (f, v). split; [done|].
      by apply list_elem_of_filter.
Qed.

End RawFacts.

(** ** A cache of detectors as JSON *)

Section TypedCaches.

Context {value : Type}.
Context (ToString : value → string).
Context (codeUnits : string → list string).

Local Abbreviation json := (@Raw.json value).

(** The fields of a device that the exporter reads. *)
Definition deviceJson (device : @Device value) : gmap string json :=
  <["id" := Raw.JString (dev_id device)]>
  (<["deviceType" := Raw.JString (deviceType device)]>
  (<["location" :=
       Raw.JObject (<["name" := Raw.JString (location_name device)]> ∅)]>
  (<["segment" :=
       Raw.JObject (<["name" := Raw.JString (segment_name device)]>
                   (<["started" := Raw.JAtom (segment_started device)]> ∅))]>
   ∅))).

(** [{ ...device, latestSamples }] *)
Definition entryJson (entry : @CachedDetector value) : json :=
  Raw.JObject
    match latestSamples entry with
    | Some fields =>
        <["latestSamples" := Raw.JObject (Raw.JAtom <$> fields)]>
          (deviceJson (cd_device entry))
    | None => deviceJson (cd_device entry)
    end.

Definition cacheJson (cache : option (gmap string (@CachedDetector value)))
    : option json :=
  (λ entries, Raw.JObject (entryJson <$> entries)) <$> cache.

Lemma get_entryJson (entry : @CachedDetector value) p :
  p ≠ "latestSamples" →
  Raw.get (Some (entryJson entry)) p = deviceJson (cd_device entry) !! p.
Proof.
  intros Hp. unfold entryJson. simpl.
  destruct (latestSamples entry); [|done]. by rewrite lookup_insert_ne.
Qed.

Lemma get_entryJson_latestSamples (entry : @CachedDetector value) :
  Raw.get (Some (entryJson entry)) "latestSamples"
  = (λ fields, Raw.JObject (Raw.JAtom <$> fields)) <$> latestSamples entry.
Proof.
  unfold entryJson. simpl. destruct (latestSamples entry); simpl.
  - by rewrite lookup_insert_eq.
  - done.
Qed.

Lemma lineOf_entryJson (entry : @CachedDetector value) field v :
  Raw.lineOf ToString (entryJson entry) (field, Raw.JAtom v)
  = metricToString ToString entry (field, v).
Proof.
  unfold Raw.lineOf, Raw.formatLine, metricToString.
  rewrite !quoted_append, !get_entryJson by done.
  reflexivity.
Qed.

Lemma metricFields_entryJson (entry : @CachedDetector value) fields :
  latestSamples entry = Some fields →
  Raw.lineOf ToString (entryJson entry)
    <$> Raw.metricFields codeUnits (entryJson entry)
  = metricToString ToString entry
      <$> filter (λ metric : string * value, metric.1 ∉ notMetrics)
                 (map_to_list fields).
Proof.
  intros Hf. unfold Raw.metricFields.
  rewrite get_entryJson_latestSamples, Hf. simpl.
  rewrite map_to_list_fmap.
  induction (map_to_list fields) as [|[field v] l IH]; [done|].
  rewrite fmap_cons, !filter_cons. simpl.
  destruct (decide (field ∉ notMetrics)); [|done].
  by rewrite !fmap_cons, lineOf_entryJson, IH.
Qed.

Lemma metricLines_entryJson (entry : @CachedDetector value) :
  Raw.metricLines ToString codeUnits (entryJson entry)
  = metricLines ToString entry.
Proof.
  rewrite metricLines_run. unfold metricLines, Raw.renderable.
  rewrite get_entryJson_latestSamples, !get_entryJson by done.
  destruct (latestSamples entry) as [fields|] eqn:Hf; [|done].
  rewrite (metricFields_entryJson _ fields Hf).
  by destruct (Raw.metricFields codeUnits (entryJson entry)).
Qed.

(** On a cache of detectors, rendering is rendering of the JSON the
    cache stands for. *)
Lemma render_cacheJson (cache : option (gmap string (@CachedDetector value))) :
  Raw.render ToString codeUnits (cacheJson cache) = render ToString cache.
Proof.
  destruct cache as [cache|]; [|done].
  unfold Raw.render, render. simpl. rewrite map_to_list_fmap.
  generalize (@Ok (list string) []).
  induction (map_to_list cache) as [|[k e] l IH]; intros acc; [done|].
  rewrite fmap_cons. cbn [foldl]. rewrite <- IH. f_equal.
  simpl. by rewrite metricLines_entryJson.
Qed.

End TypedCaches.

(** * Logging *)




(** * Scenarios

    Sample values are kept as the text JavaScript prints for them. *)

Definition showText (v : string) : string := v.

Definition epochText (v : option string) : string :=
  match v with
  | Some seconds => "Date(" +:+ seconds +:+ "000)"
  | None => "Invalid Date"
  end.

Definition dateText (v : string) : string := "Date(" +:+ v +:+ ")".

Definition hub1 : Device :=
  {| dev_id := "H1"; deviceType := "HUB"; location_name := "Hall";
     segment_name := "Home"; segment_started := "2021-01-01T00:00:00" |}.

Definition kitchen : Device :=
  {| dev_id := "D1"; deviceType := "WAVE_PLUS"; location_name := "Kitchen";
     segment_name := "Home"; segment_started := "2021-01-01T00:00:00" |}.

Definition cellar : Device :=
  {| dev_id := "D2"; deviceType := "WAVE_MINI"; location_name := "Cellar";
     segment_name := "Home"; segment_started := "2021-02-01T00:00:00" |}.

Definition attic : Device :=
  {| dev_id := "D3"; deviceType := "WAVE"; location_name := "Attic";
     segment_name := "Home"; segment_started := "2021-03-01T00:00:00" |}.

Definition kitchenData : gmap string string :=
  <["radon" := "4"]> (<["temp" := "21.5"]>
    (<["relayDeviceType" := "hub"]> (<["time" := "1700000000"]> ∅))).

Definition kitchenFresh : gmap string string :=
  <["time" := "Date(1700000000000)"]> kitchenData.

Definition liveToken : AccessToken :=
  {| access_token := "live"; expires_at := 1700000900000 |}.

Definition staleToken : AccessToken :=
  {| access_token := "stale"; expires_at := 1600000000000 |}.

(** The upstream: the listing as given, samples for D1, a rejected
    call for D2, and a body that is not JSON for anything else. *)
Definition upstream (listing : response (@Payload string)) (path : string)
    : response (@Payload string) :=
  if String.eqb path "devices" then listing
  else if String.eqb path (latestSamplesPath "D1") then
    Body (Some {| devices := None; data := Some kitchenData |})
  else if String.eqb path (latestSamplesPath "D2") then Rejected
  else Body None.

Definition listing (devs : list (@Device string)) : response (@Payload string) :=
  Body (Some {| devices := Some devs; data := None |}).

Definition world (devicesAnswer : response (@Payload string)) : @World string :=
  {| now := 1700000300000;
     cacheLatestSamplesForMs := Num 300000;
     getToken := Some liveToken;
     wreck := upstream devicesAnswer;
     tokenWriteFails := false;
     samplesWriteFails := false |}.

Definition coldDisk : @Disk string :=
  {| tokenFile := NoFile; samplesFile := NoFile; trace := [] |}.

Definition priorCache : gmap string (@CachedDetector string) :=
  <["D1" := {| cd_device := decorateDevice dateText kitchen;
               latestSamples := Some (<["radon" := "3"]> ∅) |}]>
  (<["D2" := {| cd_device := decorateDevice dateText cellar;
                latestSamples := Some (<["radon" := "7"]> ∅) |}]> ∅).

Definition warmDisk (stamp : option jsnum) : @Disk string :=
  {| tokenFile := Text (Some liveToken);
     samplesFile := Text (Some {| persistedAt := stamp;
                                  samples := Some priorCache |});
     trace := [] |}.

(** The end-to-end scenario of the specification: nothing persisted,
    one hub and the detector D1; two lines come out and both files
    exist afterwards. *)
Example cold_scrape_renders_the_detector :
  let run := getMetrics showText epochText dateText
               (world (listing [hub1; kitchen])) (Some ClientCredentials)
               coldDisk in
  run.1 = Ok [linePerSpec showText "D1" "Kitchen" "Home" "radon" "4";
              linePerSpec showText "D1" "Kitchen" "Home" "temp" "21.5"]
  ∧ tokenFile run.2 = Text (Some liveToken)
  ∧ (∃ document, samplesFile run.2 = Text (Some document)).
Proof. vm_compute. split_and!; [reflexivity..|]. by eexists. Qed.


Definition house : list (@Device string) := [hub1; kitchen; cellar].

Lemma detectors_of_the_house :
  Object_values (detectorsOf dateText house)
  = [decorateDevice dateText kitchen; decorateDevice dateText cellar].
Proof. vm_compute. reflexivity. Qed.

(** ** The claims at concrete inputs *)

(** C1, witness: hub, kitchen and cellar listed; the kitchen call
    succeeds and the cellar call is rejected. *)
Lemma partial_failure_witness :
  ∃ cache s',
    refreshMetrics epochText dateText (world (listing house)) liveToken
      (Some priorCache) (Some ClientCredentials) coldDisk
    = (Ok (Some cache), s')
    ∧ cache !! "D1" = Some {| cd_device := decorateDevice dateText kitchen;
                              latestSamples := Some kitchenFresh |}
    ∧ cache !! "D2" = priorCache !! "D2".
Proof.
  apply (partial_failure_preserves_prior_entry epochText dateText
           (world (listing house)) liveToken priorCache
           (Some ClientCredentials) coldDisk
           {| devices := Some house; data := None |} house "D1" "D2"
           (decorateDevice dateText kitchen) (decorateDevice dateText cellar)
           kitchenFresh).
  - intros s. reflexivity.
  - reflexivity.
  - vm_compute. reflexivity.
  - vm_compute. reflexivity.
  - intros s. vm_compute. reflexivity.
  - intros s. vm_compute. reflexivity.
  - intros d. rewrite detectors_of_the_house.
    intros [->|Hd]%elem_of_cons.
    + eexists. intros s. vm_compute. reflexivity.
    + apply list_elem_of_singleton in Hd as ->.
      eexists. intros s. vm_compute. reflexivity.
Defined.

(** C1, counterexample: the attic is listed too and its body is not
    JSON. The kitchen call succeeds and the cellar call returns null,
    yet the kitchen entry is the prior one, not the fresh one. *)
Lemma raising_fetch_blocks_every_update :
  let w := world (listing [kitchen; cellar; attic]) in
  let dA := decorateDevice dateText kitchen in
  let dB := decorateDevice dateText cellar in
  is_Some (priorCache !! "D1") ∧ is_Some (priorCache !! "D2")
  ∧ settlesTo (fetchLatestSamples epochText w liveToken dA)
              (Ok (Some ("D1", kitchenFresh)))
  ∧ settlesTo (fetchLatestSamples epochText w liveToken dB) (Ok None)
  ∧ (refreshMetrics epochText dateText w liveToken (Some priorCache)
       (Some ClientCredentials) coldDisk).1 = Ok (Some priorCache)
  ∧ priorCache !! "D1" ≠ Some {| cd_device := dA;
                                 latestSamples := Some kitchenFresh |}.
Proof.
  split_and!.
  - by eexists.
  - by eexists.
  - intros s. vm_compute. reflexivity.
  - intros s. vm_compute. reflexivity.
  - vm_compute. reflexivity.
  - intros H.
    apply (f_equal (λ o : option (@CachedDetector string),
                      e ← o; fields ← latestSamples e;
                      (fields : gmap string string) !! "radon")) in H.
    vm_compute in H. discriminate.
Qed.

(** C2 at its failing input, next to the freshness test of the
    specification. *)
Example fresh_per_spec_but_refreshed :
  let w := world Rejected in
  let document := {| persistedAt := Some (Num (now w));
                     samples := Some priorCache |} in
  isFreshPerSpec w document = true
  ∧ (cacheDecision w (Some document)).1 = false.
Proof. by vm_compute. Qed.

(** C3, witness: a stale document with a timestamp seeds the refresh. *)
Lemma refresh_seed_witness :
  getMetrics showText epochText dateText (world Rejected)
    (Some ClientCredentials) (warmDisk (Some (Num 1600000000000)))
  = (cache ← refreshMetrics epochText dateText (world Rejected) liveToken
               (Some priorCache) (Some ClientCredentials);
     lift (render showText cache)) (warmDisk (Some (Num 1600000000000))).
Proof.
  apply (refresh_seed_requires_timestamp showText epochText dateText
           (world Rejected) (Some ClientCredentials)
           (warmDisk (Some (Num 1600000000000))) liveToken
           (warmDisk (Some (Num 1600000000000)))).
  - reflexivity.
  - reflexivity.
Defined.

(** C3, counterexample: the document holds samples and no timestamp.
    The specification's seed is those samples; the code refreshes
    from the empty map, and with the device list out of reach the
    scrape renders nothing. *)
Lemma timestampless_document_is_not_the_seed :
  let w := world Rejected in
  let disk := warmDisk None in
  let client := Some ClientCredentials in
  seedPerSpec (loadedDocument disk) = Some priorCache
  ∧ cacheDecision w (loadedDocument disk) = (false, Some ∅)
  ∧ (cacheDecision w (loadedDocument disk)).2
    ≠ seedPerSpec (loadedDocument disk)
  ∧ getMetrics showText epochText dateText w client disk
    = (cache ← refreshMetrics epochText dateText w liveToken (Some ∅) client;
       lift (render showText cache)) disk
  ∧ (getMetrics showText epochText dateText w client disk).1 = Ok [].
Proof.
  split_and!; try reflexivity.
  intros H. apply (f_equal (λ o, size <$> o)) in H. vm_compute in H.
  discriminate.
Qed.

(** C4, counterexample: the persisted token expired long ago. [login]
    hands it back; the disk and the trace are as before, so there was
    no exchange and no write. *)
Lemma login_returns_expired_persisted_token :
  let w := world Rejected in
  let disk : @Disk string :=
    {| tokenFile := Text (Some staleToken); samplesFile := NoFile;
       trace := [] |} in
  (expires_at staleToken < now w)%Z
  ∧ expired w staleToken = true
  ∧ login w (Some ClientCredentials) disk = (Ok staleToken, disk)
  ∧ Configured.login w (Some "info") (Some ClientCredentials) disk
    = (Ok staleToken, disk).
Proof. by vm_compute. Qed.

(** A cached detector without [latestSamples] makes rendering raise. *)
Example render_raises_on_entry_without_samples :
  render showText
    (Some (<["D2" := {| cd_device := decorateDevice dateText cellar;
                        latestSamples := None |}]> priorCache))
  = Throw TypeError.
Proof. vm_compute. reflexivity. Qed.

(** The reserved fields of the kitchen answer leave no line. *)
Example reserved_fields_are_not_rendered :
  metricLines showText {| cd_device := decorateDevice dateText kitchen;
                          latestSamples := Some kitchenFresh |}
  = Ok [linePerSpec showText "D1" "Kitchen" "Home" "radon" "4";
        linePerSpec showText "D1" "Kitchen" "Home" "temp" "21.5"].
Proof. vm_compute. reflexivity. Qed.


(** The hub of the house is neither asked for samples nor rendered. *)
Example hub_is_neither_fetched_nor_rendered :
  let run := getMetrics showText epochText dateText (world (listing house))
               (Some ClientCredentials) coldDisk in
  run.1 = Ok [linePerSpec showText "D1" "Kitchen" "Home" "radon" "4";
              linePerSpec showText "D1" "Kitchen" "Home" "temp" "21.5"]
  ∧ omap (λ e, match e with
               | EvRequest path _ => Some path
               | _ => None
               end) (trace run.2)
    = ["devices"; "devices/D1/latest-samples"; "devices/D2/latest-samples"].
Proof. vm_compute. split; reflexivity. Qed.

(** ** The further properties at concrete inputs *)

Definition staleDisk : @Disk string :=
  {| tokenFile := Text (Some staleToken); samplesFile := NoFile;
     trace := [] |}.

(** A later instant, with an upstream that has gone away. *)
Definition laterWorld : @World string :=
  {| now := 1700000400000;
     cacheLatestSamplesForMs := Num 300000;
     getToken := None;
     wreck := λ _, Rejected;
     tokenWriteFails := true;
     samplesWriteFails := true |}.

Definition kitchenMoved : Device :=
  {| dev_id := "D1"; deviceType := "WAVE_PLUS"; location_name := "Pantry";
     segment_name := "Home"; segment_started := "2022-01-01T00:00:00" |}.

Definition hubD1 : Device :=
  {| dev_id := "D1"; deviceType := "HUB"; location_name := "Hall";
     segment_name := "Home"; segment_started := "2022-01-01T00:00:00" |}.

(** X1, witness: the persisted token expired, the house is listed. *)
Lemma expired_token_refresh_witness :
  refreshMetrics epochText dateText (world (listing house)) staleToken
    (Some priorCache) (Some ClientCredentials) staleDisk
  = (Ok (Some priorCache),
     {| tokenFile := Text (Some liveToken);
        samplesFile :=
          Text (Some {| persistedAt := Some (Num 1700000300000);
                        samples := Some priorCache |});
        trace := [EvGetToken; EvWriteToken liveToken;
                  EvRequest "devices" "live";
                  EvWriteSamples {| persistedAt := Some (Num 1700000300000);
                                    samples := Some priorCache |}] |}).
Proof.
  apply (expired_token_refresh_updates_nothing epochText dateText
           (world (listing house)) staleToken priorCache staleDisk
           liveToken {| devices := Some house; data := None |} house).
  - reflexivity.
  - reflexivity.
  - reflexivity.
  - reflexivity.
Defined.

(** X6, witness: the house with the kitchen listed twice. *)
Lemma refresh_traffic_witness :
  ∃ cache ids s',
    refreshMetrics epochText dateText
      (world (listing [kitchen; hub1; cellar; kitchen])) liveToken
      (Some priorCache) (Some ClientCredentials) coldDisk
    = (Ok (Some cache), s')
    ∧ NoDup ids
    ∧ (∀ id, id ∈ ids
             ↔ ∃ dev, dev ∈ [kitchen; hub1; cellar; kitchen]
                      ∧ deviceType dev ≠ "HUB" ∧ dev_id dev = id)
    ∧ trace s'
      = trace coldDisk
        ++ EvRequest "devices" "live"
           :: ((λ id, EvRequest (latestSamplesPath id) "live") <$> ids)
        ++ [EvWriteSamples {| persistedAt := Some (Num 1700000300000);
                              samples := Some cache |}].
Proof.
  apply (refresh_asks_each_detector_once epochText dateText
           (world (listing [kitchen; hub1; cellar; kitchen])) liveToken
           priorCache (Some ClientCredentials) coldDisk
           {| devices := Some [kitchen; hub1; cellar; kitchen];
              data := None |}).
  - reflexivity.
  - reflexivity.
  - reflexivity.
Defined.

(** X7, witness: the device-list request of a refresh entered with the
    expired token carries the bearer of the new one. *)
Lemma token_in_force_witness :
  EvRequest "devices" "live" ∈ trace staleDisk
  ∨ (expired (world (listing house)) staleToken = false
     ∧ "live" = access_token staleToken)
  ∨ (expired (world (listing house)) staleToken = true
     ∧ ∃ t, getToken (world (listing house)) = Some t
            ∧ "live" = access_token t).
Proof.
  apply (requests_carry_the_token_in_force epochText dateText
           (world (listing house)) staleToken (Some priorCache)
           (Some ClientCredentials) staleDisk
           (refreshMetrics epochText dateText (world (listing house))
              staleToken (Some priorCache) (Some ClientCredentials)
              staleDisk).1
           (refreshMetrics epochText dateText (world (listing house))
              staleToken (Some priorCache) (Some ClientCredentials)
              staleDisk).2).
  - by destruct (refreshMetrics _ _ _ _ _ _ _).
  - vm_compute. right. right. left.
Defined.

(** X8, witness. *)
Lemma well_formed_refresh_witness :
  ∃ cache,
    (refreshMetrics epochText dateText (world (listing house)) liveToken
       (Some priorCache) (Some ClientCredentials) coldDisk).1
    = Ok (Some cache)
    ∧ map_Forall (λ k e, hasSamples e ∧ dev_id (cd_device e) = k) cache.
Proof.
  destruct (refreshMetrics epochText dateText (world (listing house))
              liveToken (Some priorCache) (Some ClientCredentials) coldDisk)
    as [r s'] eqn:Hrun.
  assert (∃ cache, r = Ok (Some cache)) as [cache ->].
  { apply (f_equal fst) in Hrun. vm_compute in Hrun. subst r. by eexists. }
  destruct (refresh_keeps_entries_well_formed epochText dateText
              (world (listing house)) liveToken priorCache
              (Some ClientCredentials) coldDisk (Some cache) s')
    as (cache' & [= <-] & Hwf).
  - unfold priorCache.
    repeat (apply map_Forall_insert_2; [split; [by eexists|done]|]).
    apply map_Forall_empty.
  - exact Hrun.
  - by exists cache.
Defined.

(** X10, witness: the kitchen answer. *)
Lemma fresh_detector_witness :
  ∃ payload fields lines,
    wreck (world (listing house)) (latestSamplesPath "D1")
    = Body (Some payload)
    ∧ data payload = Some fields
    ∧ metricLines showText {| cd_device := decorateDevice dateText kitchen;
                              latestSamples := Some kitchenFresh |}
      = Ok lines
    ∧ lines ≡ₚ metricToString showText
                 {| cd_device := decorateDevice dateText kitchen;
                    latestSamples := None |}
                <$> filter (λ metric : string * string,
                              metric.1 ∉ notMetrics) (map_to_list fields).
Proof.
  apply (fresh_detector_renders_its_data_fields showText epochText
           (world (listing house)) liveToken
           (decorateDevice dateText kitchen) "D1" kitchenFresh).
  intros s. vm_compute. reflexivity.
Defined.

(** X11, witness: the kitchen is listed again after a move, and a hub
    claims the same id after that. *)
Lemma later_device_witness :
  detectorsOf dateText ([kitchen; cellar] ++ kitchenMoved :: [hubD1])
    !! "D1"
  = Some (decorateDevice dateText kitchenMoved).
Proof.
  apply (later_device_with_same_id_wins dateText [kitchen; cellar]
           kitchenMoved [hubD1]).
  - discriminate.
  - intros d ->%list_elem_of_singleton _. reflexivity.
Defined.

(** X13, witness: the token endpoint is down and the token on disk has
    expired. *)
Lemma token_endpoint_down_witness :
  (loadedToken staleDisk = None →
     getMetrics showText epochText dateText laterWorld
       (Some ClientCredentials) staleDisk
     = (Throw OAuthError, emit EvGetToken staleDisk))
  ∧ (∀ token, loadedToken staleDisk = Some token →
       expired laterWorld token = true →
       getMetrics showText epochText dateText laterWorld
         (Some ClientCredentials) staleDisk
       = if (cacheDecision laterWorld (loadedDocument staleDisk)).1
         then (render showText
                 (cacheDecision laterWorld (loadedDocument staleDisk)).2,
               staleDisk)
         else (Throw (RefreshError OAuthError), emit EvGetToken staleDisk)).
Proof.
  apply (token_endpoint_down_fails_only_a_miss showText epochText dateText
           laterWorld staleDisk).
  reflexivity.
Defined.

(** ** Rendering at concrete caches *)

(** The code units of a text of ASCII characters. *)
Fixpoint asciiUnits (text : string) : list string :=
  match text with
  | EmptyString => []
  | String c rest => String c EmptyString :: asciiUnits rest
  end.

Definition kitchenJson : @Raw.json string :=
  Raw.JObject
    (<["id" := Raw.JString "D1"]>
    (<["location" := Raw.JObject (<["name" := Raw.JString "Kitchen"]> ∅)]>
    (<["segment" := Raw.JObject (<["name" := Raw.JString "Home"]> ∅)]>
    (<["latestSamples" :=
         Raw.JObject (<["radon" := Raw.JAtom "4"]>
                     (<["relayDeviceType" := Raw.JString "hub"]>
                     (<["time" := Raw.JAtom "Date(1700000000000)"]> ∅)))]>
     ∅)))).

(** An entry without [latestSamples]. *)
Definition cellarJson : @Raw.json string :=
  Raw.JObject
    (<["id" := Raw.JString "D2"]>
    (<["location" := Raw.JObject (<["name" := Raw.JString "Cellar"]> ∅)]>
    (<["segment" := Raw.JObject (<["name" := Raw.JString "Home"]> ∅)]> ∅))).

(** An entry with samples and without [location]. *)
Definition atticJson : @Raw.json string :=
  Raw.JObject
    (<["id" := Raw.JString "D3"]>
    (<["segment" := Raw.JObject (<["name" := Raw.JString "Home"]> ∅)]>
    (<["latestSamples" := Raw.JObject (<["radon" := Raw.JAtom "9"]> ∅)]>
     ∅))).

(** An entry whose samples are all under reserved names, and which
    has neither [location] nor [segment]. *)
Definition shedJson : @Raw.json string :=
  Raw.JObject
    (<["id" := Raw.JString "D4"]>
    (<["latestSamples" :=
         Raw.JObject (<["time" := Raw.JAtom "Date(1700000000000)"]> ∅)]>
     ∅)).


(** An entry with a sample to render and without [location] makes
    rendering raise; an entry whose samples are all under reserved
    names is rendered to nothing, [location] or not. *)
Example location_is_read_only_for_a_metric_field :
  Raw.render showText asciiUnits
    (Some (Raw.JObject (<["D1" := kitchenJson]> (<["D3" := atticJson]> ∅))))
  = Throw TypeError
  ∧ Raw.render showText asciiUnits
      (Some (Raw.JObject (<["D4" := shedJson]> ∅)))
    = Ok [].
Proof. split; vm_compute; reflexivity. Qed.

(** C7, witness: the kitchen with one metric field and two reserved
    ones, next to the shed. *)
Lemma completed_rendering_witness :
  let cache :=
    Some (Raw.JObject (<["D1" := kitchenJson]> (<["D4" := shedJson]> ∅))) in
  ∃ metrics : list (string * Raw.json * (string * Raw.json)),
    [Raw.formatLine "radon" "D1" "Kitchen" "Home" "4"]
    = (λ m, Raw.formatLine m.2.1
              (Raw.template showText (Raw.get (Some m.1.2) "id"))
              (Raw.template showText
                 (Raw.get (Raw.get (Some m.1.2) "location") "name"))
              (Raw.template showText
                 (Raw.get (Raw.get (Some m.1.2) "segment") "name"))
              (Raw.template showText (Some m.2.2))) <$> metrics
    ∧ NoDup ((λ m, (m.1.1, m.2.1)) <$> metrics)
    ∧ ∀ k d f v,
        (k, d, (f, v)) ∈ metrics
        ↔ (k, d) ∈ Raw.entriesOf asciiUnits cache
          ∧ (f, v) ∈ Raw.entriesOf asciiUnits
                       (Raw.get (Some d) "latestSamples")
          ∧ f ∉ notMetrics.
Proof.
  apply (completed_rendering_has_one_line_per_metric_field showText
           asciiUnits
           (Some (Raw.JObject (<["D1" := kitchenJson]>
                                (<["D4" := shedJson]> ∅))))
           [Raw.formatLine "radon" "D1" "Kitchen" "Home" "4"]).
  vm_compute. reflexivity.
Defined.

(** C7, counterexample: the kitchen has the sample field [radon],
    which is not reserved, and the cellar next to it has no
    [latestSamples]: rendering raises and no line comes out, for the
    kitchen either. *)
Lemma sampleless_entry_silences_every_line :
  let cache :=
    Some (Raw.JObject (<["D1" := kitchenJson]> (<["D2" := cellarJson]> ∅))) in
  ("D1", kitchenJson) ∈ Raw.entriesOf asciiUnits cache
  ∧ ("radon", Raw.JAtom "4")
    ∈ Raw.entriesOf asciiUnits (Raw.get (Some kitchenJson) "latestSamples")
  ∧ ("radon" ∉ notMetrics)
  ∧ Raw.render showText asciiUnits cache = Throw TypeError.
Proof.
  split_and!.
  - apply elem_of_map_to_list. vm_compute. reflexivity.
  - apply elem_of_map_to_list. vm_compute. reflexivity.
  - unfold notMetrics. rewrite !elem_of_cons, elem_of_nil.
    intros [[=]|[[=]|[]]].
  - vm_compute. reflexivity.
Qed.

(** The characters of a rendered line, by their codes: the label
    values stand between quotation marks, code 34. *)
Example metric_line_characters :
  match Raw.render showText asciiUnits
          (Some (Raw.JObject
             (<["D" := Raw.JObject
                  (<["id" := Raw.JString "D"]>
                  (<["location" :=
                       Raw.JObject (<["name" := Raw.JString "K"]> ∅)]>
                  (<["segment" :=
                       Raw.JObject (<["name" := Raw.JString "H"]> ∅)]>
                  (<["latestSamples" :=
                       Raw.JObject (<["r" := Raw.JAtom "4"]> ∅)]> ∅))))]>
              ∅))) with
  | Ok lines =>
      map (λ line, map Ascii.nat_of_ascii (String.list_ascii_of_string line))
          lines
  | Throw _ => []
  end
  = [[97; 105; 114; 116; 104; 105; 110; 103; 115; 95; 114; 123; 100; 101;
      118; 105; 99; 101; 95; 105; 100; 61; 34; 68; 34; 44; 100; 101; 118;
      105; 99; 101; 95; 108; 111; 99; 97; 116; 105; 111; 110; 61; 34; 75;
      34; 44; 100; 101; 118; 105; 99; 101; 95; 115; 101; 103; 109; 101;
      110; 116; 61; 34; 72; 34; 125; 32; 52]]%nat.
Proof. vm_compute. reflexivity. Qed.

(** A cache of detectors renders as its JSON does. *)
Example prior_cache_renders_as_its_json :
  Raw.render showText asciiUnits (cacheJson (Some priorCache))
  = render showText (Some priorCache).
Proof. apply render_cacheJson. Qed.

(** ** The token at concrete inputs *)

(** With a client, an expired token costs one exchange and one write;
    the per-device call, which has no client, raises on it and asks
    nothing. *)
Example expired_token_with_and_without_a_client :
  Configured.ensureFreshToken (world Rejected) (Some "info") staleToken
    (Some ClientCredentials) staleDisk
  = (Ok liveToken,
     {| tokenFile := Text (Some liveToken); samplesFile := NoFile;
        trace := [EvGetToken; EvWriteToken liveToken] |})
  ∧ Configured.fetchLatestSamples epochText (world (listing house))
      (Some "info") staleToken (decorateDevice dateText kitchen) staleDisk
    = (Throw (RefreshError TypeError), staleDisk).
Proof. split; reflexivity. Qed.

(** ** The shipped configuration *)

(** C5, at the failing input: the device-list endpoint is out of
    reach and the configuration sets no level. *)
Example refresh_raises_under_the_shipped_configuration :
  wreck (world Rejected) "devices" = Rejected
  ∧ Configured.refreshMetrics epochText dateText (world Rejected) None
      liveToken (Some priorCache) (Some ClientCredentials) coldDisk
    = (Throw TypeError, coldDisk).
Proof. split; reflexivity. Qed.

(** C9, at the failing input: a save that would have gone through
    raises and writes nothing. *)
Example save_raises_under_the_shipped_configuration :
  tokenWriteFails (world Rejected) = false
  ∧ Configured.persistAccessToken (world Rejected) None liveToken coldDisk
    = (Throw TypeError, coldDisk)
  ∧ Configured.persistAccessToken (world Rejected) (Some "info") liveToken
      coldDisk
    = (Ok tt, {| tokenFile := Text (Some liveToken); samplesFile := NoFile;
                 trace := [EvWriteToken liveToken] |}).
Proof. split_and!; reflexivity. Qed.

(** Under the shipped configuration no scrape is served. *)
Example scrape_rejects_under_the_shipped_configuration :
  Configured.getMetrics showText epochText dateText (world (listing house))
    None (Some ClientCredentials) (warmDisk (Some (Num 1700000200000)))
  = (Throw TypeError, warmDisk (Some (Num 1700000200000))).
Proof. apply getMetrics_unconfigured. Qed.

(** ** The further properties with a level configured *)

(** X2, witness: the attic answers with a body that is not JSON. *)
Lemma raising_callback_witness :
  ∃ s', Configured.refreshMetrics epochText dateText
          (world (listing [kitchen; cellar; attic])) (Some "info") liveToken
          (Some priorCache) (Some ClientCredentials) coldDisk
        = (Ok (Some priorCache), s')
        ∧ tokenFile s' = tokenFile coldDisk
        ∧ samplesFile s' =
            Text (Some {| persistedAt := Some (Num 1700000300000);
                          samples := Some priorCache |}).
Proof.
  apply (raising_callback_discards_every_update epochText dateText
           (world (listing [kitchen; cellar; attic])) "info" liveToken
           priorCache (Some ClientCredentials) coldDisk liveToken coldDisk
           {| devices := Some [kitchen; cellar; attic]; data := None |}
           [kitchen; cellar; attic] (decorateDevice dateText attic)
           SyntaxError).
  - reflexivity.
  - reflexivity.
  - reflexivity.
  - replace (Object_values (detectorsOf dateText [kitchen; cellar; attic]))
      with [decorateDevice dateText attic; decorateDevice dateText kitchen;
            decorateDevice dateText cellar] by (vm_compute; reflexivity).
    left.
  - intros s. vm_compute. reflexivity.
Defined.

(** X3, witness: the document is a hundred seconds old and the token
    on disk has expired. *)
Lemma cache_hit_witness :
  Configured.getMetrics showText epochText dateText (world Rejected)
    (Some "warn") (Some ClientCredentials)
    {| tokenFile := Text (Some staleToken);
       samplesFile := Text (Some {| persistedAt := Some (Num 1700000200000);
                                    samples := Some priorCache |});
       trace := [] |}
  = (render showText (Some priorCache),
     {| tokenFile := Text (Some staleToken);
        samplesFile := Text (Some {| persistedAt := Some (Num 1700000200000);
                                     samples := Some priorCache |});
        trace := [] |}).
Proof.
  apply (cache_hit_touches_nothing showText epochText dateText
           (world Rejected) "warn" _ staleToken
           {| persistedAt := Some (Num 1700000200000);
              samples := Some priorCache |} 1700000200000 300000).
  - reflexivity.
  - reflexivity.
  - reflexivity.
  - reflexivity.
  - vm_compute. discriminate.
  - vm_compute. discriminate.
Defined.


(** X14, witness: the device list comes back as a body that is not
    JSON. *)
Lemma malformed_device_list_witness :
  ∃ e, Configured.refreshMetrics epochText dateText (world (Body None))
         (Some "info") liveToken (Some priorCache) (Some ClientCredentials)
         coldDisk
       = (Throw e, emit (EvRequest "devices" "live") coldDisk)
       ∧ (e = SyntaxError ∨ e = TypeError).
Proof.
  apply (proj1 (malformed_device_list_fails_the_refresh epochText dateText
                  (world (Body None)) "info" liveToken (Some priorCache)
                  (Some ClientCredentials) coldDisk liveToken coldDisk
                  eq_refl)).
  left. reflexivity.
Defined.

(** A device list that parses to [null] is taken for a failed call. *)
Example falsy_device_list_is_a_failed_call :
  Configured.refreshMetrics epochText dateText (world Falsy) (Some "info")
    liveToken (Some priorCache) (Some ClientCredentials) coldDisk
  = (Ok (Some priorCache), emit (EvRequest "devices" "live") coldDisk).
Proof. reflexivity. Qed.
